(** * minimock: the interface resolver, the mock template and the code it generates

    A shallow embedding of [minimock.go].  The file follows the program:
    - [Go]: the few pieces of the Go language and standard library that the
      tool leans on (strings, machine integers, results, process outcomes);
    - [GoTypes], [Ast]: the part of [go/types] and [go/ast] the resolver walks;
    - [Resolver]: [visitor], [Visit], [processInterface] and [ast.Walk];
    - [Template]: the [template] constant, executed as text;
    - [Tool]: [processFlags], [die] and [main];
    - [Mock]: the behaviour of the code that [template] generates.  *)

From stdpp Require Import gmap strings list fin_maps sorting.
From Stdlib Require Import ZArith Lia.

Local Open Scope string_scope.

(** ** Go preliminaries *)
Module Go.

(** A value paired with an [error], as Go functions return them. *)
Inductive result (A : Type) : Type :=
| Ok (a : A)
| Err (e : string).
Arguments Ok {A} a.
Arguments Err {A} e.

Definition tab : string := String (Ascii.ascii_of_nat 9) EmptyString.
Definition nl : string := String (Ascii.ascii_of_nat 10) EmptyString.
Definition dquote : string := String (Ascii.ascii_of_nat 34) EmptyString.

(** [strings.HasSuffix]:
    [len(s) >= len(suffix) && s[len(s)-len(suffix):] == suffix]. *)
Definition HasSuffix (s suffix : string) : bool :=
  (String.length suffix <=? String.length s)%nat
  && String.eqb
       (String.substring (String.length s - String.length suffix)
                         (String.length suffix) s)
       suffix.

(** Go's [int] on the 64-bit targets: two's complement, [+] wraps. *)
Definition intSize : Z := 64.
Definition minInt : Z := - 2 ^ (intSize - 1).
Definition maxInt : Z := 2 ^ (intSize - 1) - 1.
Definition wrap (z : Z) : Z := (z - minInt) mod 2 ^ intSize + minInt.
Definition int_add (a b : Z) : Z := wrap (a + b).

End Go.
Export Go.

(** ** go/types: what the resolver reads of a type-checked interface *)
Module GoTypes.

(** [types.Var]: a parameter or a result, with the printed form of its type. *)
Record Var : Type := { VarName : string; VarType : string }.

(** [types.Signature]. *)
Record Signature : Type :=
  { Params : list Var; Results : list Var; Variadic : bool }.

(** [types.Func], as [Interface.Method] returns it:
    [Name()] and [Type()] asserted to a signature. *)
Record Func : Type := { Name : string; Type_ : Signature }.

(** [types.Interface]: the complete method set, embedded interfaces
    included, in the order [Method(i)] enumerates it. *)
Record Interface : Type := { allMethods : list Func }.

Definition NumMethods (t : Interface) : nat := length (allMethods t).
Definition Method (t : Interface) (i : nat) : option Func := allMethods t !! i.

(** [types.Type], as far as [Visit]'s type switch tells types apart. *)
Inductive Type' : Type :=
| TInterface (t : Interface)
| TOther (descr : string).

#[global] Instance Var_eq_dec : EqDecision Var.
Proof. solve_decision. Defined.
#[global] Instance Signature_eq_dec : EqDecision Signature.
Proof. solve_decision. Defined.
#[global] Instance Func_eq_dec : EqDecision Func.
Proof. solve_decision. Defined.

End GoTypes.
Export GoTypes.

(** ** The process: standard error, the file system, exit codes *)
Module Process.

Record World : Type :=
  { stderr : list string;
    files : gmap string string }.

Definition write_stderr (s : string) (w : World) : World :=
  {| stderr := stderr w ++ [s]; files := files w |}.

Definition set_files (fs : gmap string string) (w : World) : World :=
  {| stderr := stderr w; files := fs |}.

(** A computation either goes on with a value or has called [os.Exit]. *)
Inductive Outcome (A : Type) : Type :=
| Continue (a : A)
| Exit (code : Z).
Arguments Continue {A} a.
Arguments Exit {A} code.

Definition Proc (A : Type) : Type := World → Outcome A * World.

Definition ret {A} (a : A) : Proc A := λ w, (Continue a, w).

Definition bind {A B} (c : Proc A) (k : A → Proc B) : Proc B :=
  λ w, match c w with
       | (Continue a, w') => k a w'
       | (Exit code, w') => (Exit code, w')
       end.

Definition os_Exit {A} (code : Z) : Proc A := λ w, (Exit code, w).

Definition fprint_stderr (s : string) : Proc unit :=
  λ w, (Continue tt, write_stderr s w).

End Process.
Export Process.

Declare Scope proc_scope.
Delimit Scope proc_scope with proc.
Notation "'let*' x ':=' c 'in' k" := (Process.bind c (λ x, k))
  (at level 10, x pattern, c at level 100, k at level 200) : proc_scope.
Notation "'do' c 'then' k" := (Process.bind c (λ _, k))
  (at level 10, c at level 100, k at level 200) : proc_scope.

(** [die]: print the error on standard error, exit with status 1. *)
Definition die {A} (err : string) : Proc A :=
  (do fprint_stderr (err ++ nl) then os_Exit 1)%proc.

(** ** go/ast: syntax trees as [ast.Walk] sees them *)
Module Ast.
Section Ast.
Context {Expr : Type}.

(** A node is a type specification ([ast.TypeSpec], with its name and its
    type expression) or any other node; both carry the child nodes that
    [ast.Walk] descends into. *)
#[warnings="-register-all"]
Inductive Node : Type :=
| TypeSpec (name : string) (type_ : Expr) (children : list Node)
| OtherNode (children : list Node).

Definition children (n : Node) : list Node :=
  match n with
  | TypeSpec _ _ cs => cs
  | OtherNode cs => cs
  end.

(** The type specifications of a tree, in the order [ast.Walk] meets them. *)
Fixpoint typeSpecs (n : Node) : list (string * Expr) :=
  match n with
  | TypeSpec name e cs => (name, e) :: concat (map typeSpecs cs)
  | OtherNode cs => concat (map typeSpecs cs)
  end.

End Ast.
Arguments Node : clear implicits.
End Ast.
Export Ast.

(** ** The resolver *)
Section Resolver.
Context {Expr : Type}.

(** [gen.ExpressionType], the type checker's verdict on a type expression. *)
Variable ExpressionType : Expr → result Type'.

(** [visitor]; its [gen] field is only used through [ExpressionType]. *)
Record visitor : Type :=
  { methods : gmap string Signature;
    sourceInterface : string }.

Definition set_method (name : string) (sig : Signature) (v : visitor) : visitor :=
  {| methods := <[name := sig]> (methods v);
     sourceInterface := sourceInterface v |}.

(** [for i := 0; i < t.NumMethods(); i++ {
       v.methods[t.Method(i).Name()] = t.Method(i).Type() }]
    (the type assertion to a signature cannot fail on a method).  *)
Definition processInterface (v : visitor) (t : Interface) : visitor :=
  foldl (λ v i, match Method t i with
                | Some f => set_method (Name f) (Type_ f) v
                | None => v
                end)
        v (seq 0 (NumMethods t)).

(** [Visit]; [node] is [None] for the closing [v.Visit(nil)] of [ast.Walk]. *)
Definition Visit (v : visitor) (node : option (Node Expr)) : Proc visitor :=
  match node with
  | Some (TypeSpec name type_ _) =>
      (let* exprType := match ExpressionType type_ with
                         | Err err => die err
                         | Ok ty => ret ty
                         end in
       match exprType with
       | TInterface t =>
           if decide (name ≠ sourceInterface v) then ret v
           else ret (processInterface v t)
       | _ => ret v
       end)%proc
  | _ => ret v
  end.

(** [ast.Walk]: visit the node, walk the children, visit [nil]. *)
Fixpoint Walk (v : visitor) (node : Node Expr) : Proc visitor :=
  let walkList :=
    fix walkList (v : visitor) (l : list (Node Expr)) : Proc visitor :=
      match l with
      | [] => ret v
      | c :: cs => (let* v' := Walk v c in walkList v' cs)%proc
      end in
  (let* v1 := Visit v (Some node) in
   let* v2 := match node with
              | TypeSpec _ _ cs => walkList v1 cs
              | OtherNode cs => walkList v1 cs
              end in
   Visit v2 None)%proc.

(** [for _, file := range prog.Package(packagePath).Files { ast.Walk(v, file) }] *)
Fixpoint walkFiles (v : visitor) (fs : list (Node Expr)) : Proc visitor :=
  match fs with
  | [] => ret v
  | file :: rest => (let* v' := Walk v file in walkFiles v' rest)%proc
  end.

End Resolver.

Arguments visitor : clear implicits.

(** ** The template *)

Definition result_bind {A B} (c : result A) (k : A → result B) : result B :=
  match c with
  | Ok a => k a
  | Err e => Err e
  end.

Declare Scope result_scope.
Delimit Scope result_scope with result.
Notation "'let?' x ':=' c 'in' k" := (result_bind c (λ x, k))
  (at level 10, x pattern, c at level 100, k at level 200) : result_scope.

(** [{{ range ... }} body {{ end }}]: the body once per entry, in order; the
    first failing action ends the execution with its error. *)
Fixpoint range_ {A} (entries : list A) (body : A → result string) : result string :=
  match entries with
  | [] => Ok EmptyString
  | e :: rest =>
      (let? s := body e in
       let? r := range_ rest body in
       Ok (s ++ r))%result
  end.

Fixpoint tabs (n : nat) : string :=
  match n with
  | O => EmptyString
  | S n' => tab ++ tabs n'
  end.

Section Template.

(** The template functions registered by the generator package:
    [signature], [params], [results], and [ParamSet.Pass]. *)
Context {Param : Type}.
Variable signature : Signature → result string.
Variable params : Signature → result (list Param).
Variable results : Signature → result (list Param).
Variable Pass : list Param → string.

Variable structName : string.

Definition template_fields (e : string * Signature) : result string :=
  let '(methodName, method) := e in
  (let? sig := signature method in
   Ok (" " ++ methodName ++ "Func func" ++ sig ++ nl ++ tabs 2))%result.

Definition template_counters (e : string * Signature) : result string :=
  let '(methodName, _) := e in
  Ok (" " ++ methodName ++ "Counter int" ++ nl ++ tabs 2).

Definition template_method (e : string * Signature) : result string :=
  let '(methodName, method) := e in
  (let? sig := signature method in
   let? res := results method in
   let? par := params method in
   Ok (nl ++ tabs 2 ++ "func (m *" ++ structName ++ ") " ++ methodName ++ sig ++ " {"
       ++ nl ++ tabs 3 ++ "m.m.Lock()"
       ++ nl ++ tabs 3 ++ "m." ++ methodName ++ "Counter += 1"
       ++ nl ++ tabs 3 ++ "m.m.Unlock()"
       ++ nl
       ++ nl ++ tabs 3 ++ "if m." ++ methodName ++ "Func == nil {"
       ++ nl ++ tabs 4 ++ "m.t.Fatalf(" ++ dquote ++ "Unexpected call to "
                       ++ structName ++ "." ++ methodName ++ dquote ++ ")"
       ++ nl ++ tabs 3 ++ "}"
       ++ nl
       ++ nl ++ tabs 3
       ++ (if (0 <? length res)%nat then nl ++ tabs 3 ++ "return " else EmptyString)
       ++ " m." ++ methodName ++ "Func(" ++ Pass par ++ ")"
       ++ nl ++ tabs 2 ++ "}"
       ++ nl ++ tabs 1))%result.

Definition template_expected (e : string * Signature) : result string :=
  let '(methodName, _) := e in
  Ok (nl ++ tabs 3 ++ "if m." ++ methodName ++ "Func != nil && m."
         ++ methodName ++ "Counter == 0 {"
      ++ nl ++ tabs 4 ++ "m.t.Error(" ++ dquote ++ "Expected call to "
                      ++ structName ++ "." ++ methodName ++ dquote ++ ")"
      ++ nl ++ tabs 3 ++ "}"
      ++ nl ++ tabs 2).

Definition template_all_called (e : string * Signature) : result string :=
  let '(methodName, _) := e in
  Ok (nl ++ tabs 3 ++ "if m." ++ methodName ++ "Func != nil && m."
         ++ methodName ++ "Counter == 0 {"
      ++ nl ++ tabs 4 ++ "return false"
      ++ nl ++ tabs 3 ++ "}"
      ++ nl ++ tabs 2).

(** The [template] constant executed on the entries of the method map, in
    the order [range] visits them. *)
Definition template (entries : list (string * Signature)) : result string :=
  (let? fields := range_ entries template_fields in
   let? counters := range_ entries template_counters in
   let? forwards := range_ entries template_method in
   let? validate := range_ entries template_expected in
   let? check := range_ entries template_expected in
   let? all_called := range_ entries template_all_called in
   Ok (nl ++ tabs 1 ++ "type " ++ structName ++ " struct {"
       ++ nl ++ tabs 2 ++ "t *testing.T"
       ++ nl ++ tabs 2 ++ "m *sync.RWMutex"
       ++ nl
       ++ nl ++ tabs 2 ++ fields
       ++ nl ++ tabs 2 ++ counters
       ++ nl ++ tabs 1 ++ "}"
       ++ nl
       ++ nl ++ tabs 1 ++ "func New" ++ structName ++ "(t *testing.T) *"
                       ++ structName ++ " {"
       ++ nl ++ tabs 2 ++ "return &" ++ structName ++ "{t: t, m: &sync.RWMutex{} }"
       ++ nl ++ tabs 1 ++ "}"
       ++ nl
       ++ nl ++ tabs 1 ++ forwards
       ++ nl
       ++ nl ++ tabs 1 ++ "func (m *" ++ structName ++ ") ValidateCallCounters() {"
       ++ nl ++ tabs 2 ++ "m.t.Log(" ++ dquote
            ++ "ValidateCallCounters is deprecated please use CheckMocksCalled"
            ++ dquote ++ ")"
       ++ nl
       ++ nl ++ tabs 2 ++ validate
       ++ nl ++ tabs 1 ++ "}"
       ++ nl
       ++ nl ++ tabs 1 ++ "func (m *" ++ structName ++ ") CheckMocksCalled() {"
       ++ nl ++ tabs 2 ++ check
       ++ nl ++ tabs 1 ++ "}"
       ++ nl
       ++ nl ++ tabs 1 ++ "//AllMocksCalled returns true if all mocked methods were called before the call to AllMocksCalled,"
       ++ nl ++ tabs 1 ++ "//it can be used with assert/require, i.e. assert.True(mock.AllMocksCalled())"
       ++ nl ++ tabs 1 ++ "func (m *" ++ structName ++ ") AllMocksCalled() bool {"
       ++ nl ++ tabs 2 ++ "m.m.RLock()"
       ++ nl ++ tabs 2 ++ "defer m.m.RUnlock()"
       ++ nl
       ++ nl ++ tabs 2 ++ all_called
       ++ nl
       ++ nl ++ tabs 2 ++ "return true"
       ++ nl ++ tabs 1 ++ "}"))%result.

End Template.

(** ** The tool: flags, generator state, [main] *)

(** [options]. *)
Record options : Type :=
  { InputFile : string;
    OutputFile : string;
    InterfaceName : string;
    StructName : string;
    Package : string }.

(** What the five flag variables of [processFlags] hold once [flag.Parse]
    has returned: the command line's value, or the default (the empty
    string) for a flag that was not given. *)
Record flagValues : Type :=
  { input : string;    (* -f *)
    name : string;     (* -i *)
    output : string;   (* -o *)
    pkg : string;      (* -p *)
    sname : string }.  (* -t *)

Definition isEmpty (s : string) : bool := String.eqb s EmptyString.

Section Tool.
Context {Expr Param Program : Type}.

(** The usage text [flag.Usage] prints. *)
Variable usage : string.

(** [generator.PackageOf], [filepath.Dir], the [%q] verb of [fmt]. *)
Variable PackageOf : string → result string.
Variable filepath_Dir : string → string.
Variable Quote : string → string.

(** [loader.Config.Load] on the imported package paths, and
    [prog.Package(path).Files]. *)
Variable Load : list string → result Program.
Variable PackageFiles : Program → string → list (Node Expr).

(** The generator package over the loaded program: expression types and
    the template functions. *)
Variable ExpressionType : Program → Expr → result Type'.
Variable signature : Program → Signature → result string.
Variable params : Program → Signature → result (list Param).
Variable results : Program → Signature → result (list Param).
Variable Pass : list Param → string.

(** [gen.WriteToFilename]: formats what the generator holds and writes the
    file; it may fail, and may have touched the file system when it does. *)
Record Generator : Type :=
  { prog : Program;
    imports : list (string * string);
    packageName : string;
    vars : gmap string string;
    header : string;
    body : string }.

Variable WriteToFilename :
  Generator → string → gmap string string → option string * gmap string string.

Definition New (p : Program) : Generator :=
  {| prog := p; imports := []; packageName := EmptyString; vars := ∅;
     header := EmptyString; body := EmptyString |}.

Definition ImportWithAlias (path alias : string) (g : Generator) : Generator :=
  {| prog := prog g; imports := imports g ++ [(path, alias)];
     packageName := packageName g; vars := vars g;
     header := header g; body := body g |}.

Definition SetPackageName (n : string) (g : Generator) : Generator :=
  {| prog := prog g; imports := imports g; packageName := n; vars := vars g;
     header := header g; body := body g |}.

Definition SetVar (k v : string) (g : Generator) : Generator :=
  {| prog := prog g; imports := imports g; packageName := packageName g;
     vars := <[k := v]> (vars g); header := header g; body := body g |}.

Definition SetHeader (h : string) (g : Generator) : Generator :=
  {| prog := prog g; imports := imports g; packageName := packageName g;
     vars := vars g; header := h; body := body g |}.

Definition write_body (s : string) (g : Generator) : Generator :=
  {| prog := prog g; imports := imports g; packageName := packageName g;
     vars := vars g; header := header g; body := body g ++ s |}.

(** The template variable [$structName], set through [gen.SetVar]. *)
Definition var (g : Generator) (k : string) : string :=
  default EmptyString (vars g !! k).

(** The template executed on given entries, appended to the generator's
    output. *)
Definition executeTemplate (g : Generator) (entries : list (string * Signature))
  : result Generator :=
  (let? s := template (signature (prog g)) (params (prog g)) (results (prog g))
                      Pass (var g "structName") entries in
   Ok (write_body s g))%result.

(** [range] over a map visits the entries in the sorted order of the keys. *)
Definition key_le (a b : string * Signature) : Prop :=
  Is_true (String.leb a.1 b.1).

Definition rangeMap (data : gmap string Signature) : list (string * Signature) :=
  merge_sort key_le (map_to_list data).

(** [gen.ProcessTemplate("interface", template, data)]. *)
Definition ProcessTemplate (g : Generator) (data : gmap string Signature)
  : result Generator :=
  executeTemplate g (rangeMap data).


Definition flag_Usage : Proc unit := fprint_stderr usage.

(** [processFlags], from the parsed flag values on ([processFlagsFrom] has
    the call of [flag.Parse] as well). *)
Definition processFlags (fv : flagValues) : Proc options :=
  (do (if isEmpty (pkg fv) || isEmpty (input fv) || isEmpty (output fv)
          || isEmpty (name fv) || negb (HasSuffix (output fv) ".go")
       then (do flag_Usage then os_Exit 1)
       else ret tt) then
   let sname' := if isEmpty (sname fv) then name fv ++ "Mock" else sname fv in
   ret {| InputFile := input fv;
          OutputFile := output fv;
          InterfaceName := name fv;
          Package := pkg fv;
          StructName := sname' |})%proc.

Definition orDie {A} (r : result A) : Proc A :=
  match r with
  | Ok a => ret a
  | Err err => die err
  end.

Definition headerText (inputFile : string) : string :=
  nl ++ tabs 2 ++ "This is automatically generated code. Please DO NOT review/modify/comment."
  ++ nl ++ tabs 2 ++ "Original interface can be found in " ++ inputFile
  ++ nl ++ tabs 1.

(** The generator as [main] configures it before the template runs. *)
Definition configure (p : Program) (destPackagePath : string) (opts : options)
  : Generator :=
  SetHeader (headerText (InputFile opts))
    (SetVar "interfaceName" (InterfaceName opts)
       (SetVar "structName" (StructName opts)
          (SetPackageName (Package opts)
             (ImportWithAlias destPackagePath EmptyString (New p))))).

Definition notFound (interfaceName packagePath : string) : string :=
  "interface " ++ interfaceName ++ " was not found in " ++ packagePath
  ++ " or it's an empty interface".

(** [main], after [processFlags]. *)
Definition run (opts : options) : Proc unit :=
  (let* packagePath := orDie (PackageOf (InputFile opts)) in
   let* destPackagePath := orDie (PackageOf (filepath_Dir (OutputFile opts))) in
   let* p := match Load [packagePath; destPackagePath] with
             | Ok p => ret p
             | Err err => die ("failed to load API package " ++ Quote packagePath
                               ++ ": " ++ err)
             end in
   let gen := configure p destPackagePath opts in
   let v := {| methods := ∅; sourceInterface := InterfaceName opts |} in
   let* v := walkFiles (ExpressionType p) v (PackageFiles p packagePath) in
   do (if decide (size (methods v) = 0)
       then die (notFound (InterfaceName opts) packagePath)
       else ret tt) then
   let* gen := orDie (ProcessTemplate gen (methods v)) in
   λ w, match WriteToFilename gen (OutputFile opts) (files w) with
        | (None, fs) => (Continue tt, set_files fs w)
        | (Some err, fs) => die err (set_files fs w)
        end)%proc.

(** [main], from the values of the flag variables on ([mainFrom] has the
    call of [flag.Parse] as well). *)
Definition main (fv : flagValues) : Proc unit :=
  (let* opts := processFlags fv in run opts)%proc.

End Tool.

(** ** The generated mock

    What the Go code produced by [template] does, for a struct name and a
    method map.  The struct has one [<X>Func] and one [<X>Counter] field per
    method [X]; [m.t] and [m.m] are seen through the calls made on them. *)
Module Mock.
Section Mock.
Context {Value : Type}.

(** A function value stored in a [<X>Func] field; [None] is [nil]. *)
Definition GoFunc : Type := list Value → list Value.

Inductive Event : Type :=
| Lock | Unlock | RLock | RUnlock                  (* on m.m *)
| Log (msg : string)                               (* m.t.Log *)
| Error (msg : string)                             (* m.t.Error *)
| Fatalf (msg : string)                            (* m.t.Fatalf *)
| Invoke (methodName : string) (args : list Value) (* a call of a stored function *).

Record State : Type :=
  { XFunc : string → option GoFunc;
    XCounter : string → Z;
    trace : list Event }.

(** How a call on the mock ends: it returns, the goroutine is stopped by
    [Fatalf] ([runtime.Goexit]), or it panics on a nil function. *)
Inductive Outcome (A : Type) : Type :=
| Returned (a : A)
| Goexit
| Panic.
Arguments Returned {A} a.
Arguments Goexit {A}.
Arguments Panic {A}.

Definition M (A : Type) : Type := State → Outcome A * State.

Definition ret {A} (a : A) : M A := λ st, (Returned a, st).

Definition bind {A B} (c : M A) (k : A → M B) : M B :=
  λ st, match c st with
        | (Returned a, st') => k a st'
        | (Goexit, st') => (Goexit, st')
        | (Panic, st') => (Panic, st')
        end.

Definition emit (e : Event) : M unit :=
  λ st, (Returned tt,
         {| XFunc := XFunc st; XCounter := XCounter st; trace := trace st ++ [e] |}).

Definition getFunc (methodName : string) : M (option GoFunc) :=
  λ st, (Returned (XFunc st methodName), st).

Definition getCounter (methodName : string) : M Z :=
  λ st, (Returned (XCounter st methodName), st).

(** [m.<X>Counter += 1] *)
Definition incrCounter (methodName : string) : M unit :=
  λ st, (Returned tt,
         {| XFunc := XFunc st;
            XCounter := λ n, if decide (n = methodName)
                             then int_add (XCounter st n) 1
                             else XCounter st n;
            trace := trace st |}).

(** A test's assignment [mock.<X>Func = f]. *)
Definition setFunc (methodName : string) (f : option GoFunc) (st : State) : State :=
  {| XFunc := λ n, if decide (n = methodName) then f else XFunc st n;
     XCounter := XCounter st;
     trace := trace st |}.

(** A test's assignment [mock.<X>Counter = c]. *)
Definition setCounter (methodName : string) (c : Z) (st : State) : State :=
  {| XFunc := XFunc st;
     XCounter := λ n, if decide (n = methodName) then c else XCounter st n;
     trace := trace st |}.

Definition t_Log (msg : string) : M unit := emit (Log msg).
Definition t_Error (msg : string) : M unit := emit (Error msg).
Definition t_Fatalf {A} (msg : string) : M A :=
  bind (emit (Fatalf msg)) (λ _ st, (Goexit, st)).

(** Calling the function value [f]. *)
Definition callFunc (methodName : string) (f : option GoFunc) (args : list Value)
  : M (list Value) :=
  match f with
  | None => λ st, (Panic, st)
  | Some g => bind (emit (Invoke methodName args)) (λ _, ret (g args))
  end.

Variable structName : string.

(** [New<structName>(t)]: every field but [t] and [m] has its zero value. *)
Definition NewMock (t : list Event) : State :=
  {| XFunc := λ _, None; XCounter := λ _, 0%Z; trace := t |}.

Definition unexpectedCall (methodName : string) : string :=
  "Unexpected call to " ++ structName ++ "." ++ methodName.

Definition expectedCall (methodName : string) : string :=
  "Expected call to " ++ structName ++ "." ++ methodName.

Local Notation "'let*' x ':=' c 'in' k" := (bind c (λ x, k))
  (at level 10, x pattern, c at level 100, k at level 200).
Local Notation "'do' c 'then' k" := (bind c (λ _, k))
  (at level 10, c at level 100, k at level 200).

(** The forwarding method from the [nil] check on: [Fatalf] when no
    function is stored, else the call, whose results are returned when the
    signature has results (the template asks the generator's [results] for
    them, which lists the results of the signature). *)
Definition forward (methodName : string) (method : Signature) (args : list Value)
  : M (list Value) :=
  let* f := getFunc methodName in
  do (match f with
      | None => t_Fatalf (unexpectedCall methodName)
      | Some _ => ret tt
      end) then
  let* f := getFunc methodName in
  let* r := callFunc methodName f args in
  ret (if (0 <? length (Results method))%nat then r else []).

(** [func (m *<structName>) <methodName><signature>]. *)
Definition method (methodName : string) (sig : Signature) (args : list Value)
  : M (list Value) :=
  do emit Lock then
  do incrCounter methodName then
  do emit Unlock then
  forward methodName sig args.

Definition isConfigured (f : option GoFunc) : bool :=
  match f with
  | Some _ => true
  | None => false
  end.

(** The [range] block of [ValidateCallCounters]. *)
Fixpoint ValidateCallCounters_range (entries : list (string * Signature)) : M unit :=
  match entries with
  | [] => ret tt
  | (methodName, _) :: rest =>
      let* f := getFunc methodName in
      let* c := getCounter methodName in
      do (if isConfigured f && (c =? 0)%Z
          then t_Error (expectedCall methodName)
          else ret tt) then
      ValidateCallCounters_range rest
  end.

Definition ValidateCallCounters (data : gmap string Signature) : M unit :=
  do t_Log "ValidateCallCounters is deprecated please use CheckMocksCalled" then
  ValidateCallCounters_range (rangeMap data).

(** The [range] block of [CheckMocksCalled]. *)
Fixpoint CheckMocksCalled_range (entries : list (string * Signature)) : M unit :=
  match entries with
  | [] => ret tt
  | (methodName, _) :: rest =>
      let* f := getFunc methodName in
      let* c := getCounter methodName in
      do (if isConfigured f && (c =? 0)%Z
          then t_Error (expectedCall methodName)
          else ret tt) then
      CheckMocksCalled_range rest
  end.

Definition CheckMocksCalled (data : gmap string Signature) : M unit :=
  CheckMocksCalled_range (rangeMap data).

(** The [range] block of [AllMocksCalled]: [Some false] when a
    [return false] is reached, [None] when the blocks fall through. *)
Fixpoint AllMocksCalled_range (entries : list (string * Signature))
  : M (option bool) :=
  match entries with
  | [] => ret None
  | (methodName, _) :: rest =>
      let* f := getFunc methodName in
      let* c := getCounter methodName in
      if isConfigured f && (c =? 0)%Z
      then ret (Some false)
      else AllMocksCalled_range rest
  end.

(** [AllMocksCalled]; the deferred [RUnlock] runs as the method returns. *)
Definition AllMocksCalled (data : gmap string Signature) : M bool :=
  do emit RLock then
  let* r := AllMocksCalled_range (rangeMap data) in
  let b := match r with
           | Some b => b
           | None => true
           end in
  do emit RUnlock then
  ret b.

End Mock.
Arguments State : clear implicits.
Arguments Event : clear implicits.
Arguments GoFunc : clear implicits.
Arguments M : clear implicits.
Arguments Returned {A} a.
Arguments Goexit {A}.
Arguments Panic {A}.
End Mock.

(** ** Vocabulary of the statements *)

(** The method of interface [t] declared under [n]: the last one, should the
    enumeration repeat a name. *)
Definition declared (t : Interface) (n : string) : option Func :=
  last (filter (λ f, Name f = n) (allMethods t)).

(** All type specifications of a package's files, in walking order. *)
Definition packageSpecs {Expr : Type} (fs : list (Node Expr)) : list (string * Expr) :=
  concat (map typeSpecs fs).

(** The interface types that type specifications named [src] resolve to. *)
Definition interfacesNamed {Expr : Type} (ExpressionType : Expr → result Type')
    (src : string) (specs : list (string * Expr)) : list Interface :=
  omap (λ '(n, e), match ExpressionType e with
                   | Ok (TInterface t) => if decide (n = src) then Some t else None
                   | _ => None
                   end) specs.

(** Every type expression of the specifications has a type. *)
Definition typed {Expr : Type} (ExpressionType : Expr → result Type')
    (specs : list (string * Expr)) : Prop :=
  Forall (λ '(_, e), ∃ ty, ExpressionType e = Ok ty) specs.

(** [Visit] over a sequence of type specifications. *)
Fixpoint visitSpecs {Expr : Type} (ExpressionType : Expr → result Type')
    (v : visitor) (specs : list (string * Expr)) : Proc visitor :=
  match specs with
  | [] => ret v
  | (n, e) :: rest =>
      (let* v' := Visit ExpressionType v (Some (TypeSpec n e [])) in
       visitSpecs ExpressionType v' rest)%proc
  end.

(** The flag values that pass the check of [processFlags]. *)
Definition flagsValid (fv : flagValues) : Prop :=
  pkg fv ≠ EmptyString ∧ input fv ≠ EmptyString ∧ output fv ≠ EmptyString
  ∧ name fv ≠ EmptyString ∧ ∃ stem, output fv = stem ++ ".go".
(** The condition of the [if] in [processFlags]. *)
Definition flagsRejected (fv : flagValues) : bool :=
  isEmpty (pkg fv) || isEmpty (input fv) || isEmpty (output fv)
  || isEmpty (name fv) || negb (HasSuffix (output fv) ".go").



(** The state with further events on its trace. *)
Definition addTrace {Value : Type} (evs : list (Mock.Event Value))
    (st : Mock.State Value) : Mock.State Value :=
  {| Mock.XFunc := Mock.XFunc st;
     Mock.XCounter := Mock.XCounter st;
     Mock.trace := (Mock.trace st ++ evs)%list |}.

(** The state after [m.<X>Counter += 1]. *)
Definition incremented {Value : Type} (methodName : string)
    (st : Mock.State Value) : Mock.State Value :=
  (Mock.incrCounter methodName st).2.

(** A method has a stored function and was never called. *)
Definition missed {Value : Type} (st : Mock.State Value) (methodName : string) : Prop :=
  is_Some (Mock.XFunc st methodName) ∧ Mock.XCounter st methodName = 0%Z.

#[global] Instance missed_dec {Value : Type} (st : Mock.State Value) (n : string) :
  Decision (missed st n).
Proof. unfold missed. apply _. Defined.

(** The operations of a generated mock. *)
Inductive Op (Value : Type) : Type :=
| OpMethod (methodName : string) (sig : Signature) (args : list Value)
| OpValidateCallCounters
| OpCheckMocksCalled
| OpAllMocksCalled.
Arguments OpMethod {Value} methodName sig args.
Arguments OpValidateCallCounters {Value}.
Arguments OpCheckMocksCalled {Value}.
Arguments OpAllMocksCalled {Value}.

(** The mock after an operation, however the operation ended. *)
Definition exec {Value : Type} (structName : string) (data : gmap string Signature)
    (op : Op Value) (st : Mock.State Value) : Mock.State Value :=
  match op with
  | OpMethod methodName sig args => (Mock.method structName methodName sig args st).2
  | OpValidateCallCounters => (Mock.ValidateCallCounters structName data st).2
  | OpCheckMocksCalled => (Mock.CheckMocksCalled structName data st).2
  | OpAllMocksCalled => (Mock.AllMocksCalled data st).2
  end.

(** The states a mock gets into: from the constructor, through the test's
    assignments to the function fields and the operations of the mock. *)
Inductive reachable {Value : Type} (structName : string)
    (data : gmap string Signature) : Mock.State Value → Prop :=
| reach_new (t : list (Mock.Event Value)) :
    reachable structName data (Mock.NewMock t)
| reach_setFunc (st : Mock.State Value) (n : string) (f : option (Mock.GoFunc Value)) :
    reachable structName data st →
    reachable structName data (Mock.setFunc n f st)
| reach_exec (st : Mock.State Value) (op : Op Value) :
    reachable structName data st →
    reachable structName data (exec structName data op st).

(** The mock after a sequence of operations. *)
Definition execAll {Value : Type} (structName : string) (data : gmap string Signature)
    (ops : list (Op Value)) (st : Mock.State Value) : Mock.State Value :=
  foldl (λ st op, exec structName data op st) st ops.

(** No operation of the mock ever decreases a counter. *)
Definition neverDecreases (Value : Type) (structName : string)
    (data : gmap string Signature) : Prop :=
  ∀ st : Mock.State Value, reachable structName data st →
    ∀ op n, (Mock.XCounter st n ≤ Mock.XCounter (exec structName data op st) n)%Z.

(** ** A package to run the tool on

    [package greeter], in [greeter.go]:
    [type Greeter interface { Greet(name string) string }],
    [type Config struct{}] and [type Empty interface{}]. *)
Module Example.

Definition greetSig : Signature :=
  {| Params := [{| VarName := "name"; VarType := "string" |}];
     Results := [{| VarName := EmptyString; VarType := "string" |}];
     Variadic := false |}.

Definition Greet : Func := {| Name := "Greet"; Type_ := greetSig |}.

Definition Greeter : Interface := {| allMethods := [Greet] |}.

(** Type expressions stand for themselves: each carries its type. *)
Definition ExpressionType (e : Type') : result Type' := Ok e.

Definition greeter_go : Node Type' :=
  OtherNode
    [OtherNode [TypeSpec "Greeter" (TInterface Greeter) [OtherNode []]];
     OtherNode [TypeSpec "Config" (TOther "struct{}") []];
     OtherNode [TypeSpec "Empty" (TInterface {| allMethods := [] |}) []]].

Definition Program : Type := list (Node Type').
Definition program : Program := [greeter_go].

Definition usage : string := "Usage of minimock:".
Definition PackageOf (path : string) : result string := Ok "example.com/greeter".
Definition filepath_Dir (path : string) : string := ".".
Definition Quote (s : string) : string := dquote ++ s ++ dquote.
Definition Load (paths : list string) : result Program := Ok program.
Definition PackageFiles (p : Program) (path : string) : list (Node Type') := p.
Definition signature (p : Program) (sig : Signature) : result string :=
  Ok "(name string) string".
Definition params (p : Program) (sig : Signature) : result (list Var) :=
  Ok (Params sig).
Definition results (p : Program) (sig : Signature) : result (list Var) :=
  Ok (Results sig).
Definition Pass (ps : list Var) : string :=
  String.concat ", " (VarName <$> ps).
Definition WriteToFilename (g : Generator (Program := Program)) (filename : string)
    (fs : gmap string string) : option string * gmap string string :=
  (None, <[filename := body g]> fs).

Definition world : World := {| stderr := []; files := ∅ |}.

(** [minimock -f greeter.go -i Greeter -o greeter_mock.go -p greeter] *)
Definition flags : flagValues :=
  {| input := "greeter.go"; name := "Greeter"; output := "greeter_mock.go";
     pkg := "greeter"; sname := EmptyString |}.

(** The same with [-i Config], a struct type. *)
Definition flagsConfig : flagValues :=
  {| input := "greeter.go"; name := "Config"; output := "config_mock.go";
     pkg := "greeter"; sname := EmptyString |}.

(** The same without [-o]. *)
Definition flagsNoOutput : flagValues :=
  {| input := "greeter.go"; name := "Greeter"; output := EmptyString;
     pkg := "greeter"; sname := EmptyString |}.

(** The same with [-i Empty], an interface without methods. *)
Definition flagsEmpty : flagValues :=
  {| input := "greeter.go"; name := "Empty"; output := "empty_mock.go";
     pkg := "greeter"; sname := EmptyString |}.

Definition toolMain : flagValues → Proc unit :=
  main usage PackageOf filepath_Dir Quote Load PackageFiles
       (λ _, ExpressionType) signature params results Pass WriteToFilename.

Definition opts : options :=
  {| InputFile := "greeter.go"; OutputFile := "greeter_mock.go";
     InterfaceName := "Greeter"; StructName := "GreeterMock"; Package := "greeter" |}.



Definition data : gmap string Signature := {[ "Greet" := greetSig ]}.

(** A test's function for [GreetFunc], on strings. *)
Definition greetFunc : Mock.GoFunc string :=
  λ args, match args with
          | [who] => ["hello " ++ who]
          | _ => []
          end.

Definition fresh : Mock.State string := Mock.NewMock [].

(** The mock once the test has set [GreetFunc]. *)
Definition configured : Mock.State string :=
  Mock.setFunc "Greet" (Some greetFunc) fresh.

(** [mock.Greet("Bob")] *)
Definition callGreet : Op string := OpMethod "Greet" greetSig ["Bob"].

(** The mock after as many calls of [Greet] as the largest [int] counts. *)
Definition worn : Mock.State string :=
  execAll "GreeterMock" data (repeat callGreet (Z.to_nat maxInt)) configured.

End Example.

(** ** [processFlags] and [main] with the call of [flag.Parse]

    [flag.Parse] reads the command line: it returns with the flag
    variables set, or ends the process itself (after printing, with a
    status of its own) on a command line it does not accept.  It is taken
    as it comes: a computation that yields the values of the flag
    variables or exits. *)

(** [processFlags], from its first line on. *)
Definition processFlagsFrom (usage : string) (flag_Parse : Proc flagValues)
    : Proc options :=
  (let* fv := flag_Parse in processFlags usage fv)%proc.

(** [main], from its first line on. *)
Definition mainFrom {Expr Param Program : Type} (usage : string)
    (PackageOf : string → result string) (filepath_Dir Quote : string → string)
    (Load : list string → result Program)
    (PackageFiles : Program → string → list (Node Expr))
    (ExpressionType : Program → Expr → result Type')
    (signature : Program → Signature → result string)
    (params results : Program → Signature → result (list Param))
    (Pass : list Param → string)
    (WriteToFilename : Generator (Program := Program) → string
                       → gmap string string → option string * gmap string string)
    (flag_Parse : Proc flagValues) : Proc unit :=
  (let* opts := processFlagsFrom usage flag_Parse in
   run PackageOf filepath_Dir Quote Load PackageFiles ExpressionType
       signature params results Pass WriteToFilename opts)%proc.

(** ** Further vocabulary *)


(** The requested name is that of a type specification whose type is not
    an interface. *)
Definition namesNonInterface {Expr : Type} (ExpressionType : Expr → result Type')
    (src : string) (specs : list (string * Expr)) : Prop :=
  ∃ e descr, (src, e) ∈ specs ∧ ExpressionType e = Ok (TOther descr).

(** The options [processFlags] builds from flag values. *)
Definition optionsOf (fv : flagValues) : options :=
  {| InputFile := input fv;
     OutputFile := output fv;
     InterfaceName := name fv;
     Package := pkg fv;
     StructName := if isEmpty (sname fv) then name fv ++ "Mock" else sname fv |}.

(** The method map after the walk over type specifications, started from
    the empty map as [main] does. *)
Definition resolved {Expr : Type} (ExpressionType : Expr → result Type')
    (src : string) (specs : list (string * Expr)) : gmap string Signature :=
  methods (foldl processInterface {| methods := ∅; sourceInterface := src |}
             (interfacesNamed ExpressionType src specs)).

(** A template function succeeds on a signature. *)
Definition succeeds {A B : Type} (f : A → result B) (a : A) : Prop :=
  ∃ b, f a = Ok b.

(** The operation is a call of the forwarding method [n]. *)
Definition isCallOf {Value : Type} (n : string) (op : Op Value) : bool :=
  match op with
  | OpMethod methodName _ _ => bool_decide (methodName = n)
  | _ => false
  end.

(** How often the operations call the forwarding method [n]. *)
Definition callsOf {Value : Type} (n : string) (ops : list (Op Value)) : nat :=
  length (filter (λ op, isCallOf n op = true) ops).

(** The operation is one of the three verification methods. *)
Definition isVerification {Value : Type} (op : Op Value) : bool :=
  match op with
  | OpMethod _ _ _ => false
  | _ => true
  end.


(** ** A package with a type expression the checker has no type for *)
Module Untyped.

Definition ExpressionType (e : option Type') : result Type' :=
  match e with
  | Some ty => Ok ty
  | None => Err "expression not found"
  end.

(** [type Greeter interface { Greet(name string) string }] after a type
    specification [Broken] whose type expression has no type. *)
Definition broken_go : Node (option Type') :=
  OtherNode
    [OtherNode [TypeSpec "Broken" None []];
     OtherNode [TypeSpec "Greeter" (Some (TInterface Example.Greeter)) []]].

End Untyped.

(** ** A package that declares the requested name twice

    [type Greeter interface { Greet(name string) string }] at package
    level, and in the body of a function
    [type Greeter interface { Bye() }]. *)
Module Shadow.

Definition byeSig : Signature :=
  {| Params := []; Results := []; Variadic := false |}.

Definition Bye : Func := {| Name := "Bye"; Type_ := byeSig |}.

Definition LocalGreeter : Interface := {| allMethods := [Bye] |}.

Definition shadow_go : Node Type' :=
  OtherNode
    [OtherNode [TypeSpec "Greeter" (TInterface Example.Greeter) []];
     OtherNode [OtherNode [OtherNode
       [TypeSpec "Greeter" (TInterface LocalGreeter) []]]]].



(** [type Config struct{}] at package level, and in the body of a function
    [type Config interface { Bye() }]. *)
Definition config_go : Node Type' :=
  OtherNode
    [OtherNode [TypeSpec "Config" (TOther "struct{}") []];
     OtherNode [OtherNode [OtherNode
       [TypeSpec "Config" (TInterface LocalGreeter) []]]]].

Definition config_program : Example.Program := [config_go].

Definition Load (paths : list string) : result Example.Program := Ok config_program.

Definition toolMain : flagValues → Proc unit :=
  main Example.usage Example.PackageOf Example.filepath_Dir Example.Quote
       Load Example.PackageFiles (λ _, Example.ExpressionType)
       Example.signature Example.params Example.results Example.Pass
       Example.WriteToFilename.

End Shadow.

(** ** What [flag.Parse] may do *)
Module Parse.

(** The command line of [Example.flagsConfig] is accepted. *)
Definition accepts : Proc flagValues := Process.ret Example.flagsConfig.

(** A command line with a flag that is not defined: [flag.Parse] prints
    and exits with status 2. *)
Definition refuses : Proc flagValues :=
  (do fprint_stderr "flag provided but not defined: -x" then os_Exit 2)%proc.

Definition mainOn (flag_Parse : Proc flagValues) : Proc unit :=
  mainFrom Example.usage Example.PackageOf Example.filepath_Dir Example.Quote
           Example.Load Example.PackageFiles (λ _, Example.ExpressionType)
           Example.signature Example.params Example.results Example.Pass
           Example.WriteToFilename flag_Parse.

End Parse.

(** * Facts *)

(** ** Strings *)

Lemma substring_skip (pre s : string) (m : nat) :
  String.substring (String.length pre) m (pre ++ s) = String.substring 0 m s.
Proof. induction pre as [|c pre IH]; simpl; auto. Qed.

Lemma substring_whole (s : string) :
  String.substring 0 (String.length s) s = s.
Proof. induction s as [|c s IH]; simpl; [done | by rewrite IH]. Qed.

Lemma string_app_length (a b : string) :
  String.length (a ++ b) = String.length a + String.length b.
Proof. induction a as [|c a IH]; simpl; [done | by rewrite IH]. Qed.

Lemma substring_split (s : string) (n m : nat) :
  n + m = String.length s →
  s = String.substring 0 n s ++ String.substring n m s.
Proof.
  revert n; induction s as [|c s IH]; intros [|n] Hlen; simpl in *.
  - by destruct m.
  - lia.
  - destruct m as [|m]; [lia |].
    injection Hlen as ->. by rewrite substring_whole.
  - change (String c s = String c (String.substring 0 n s ++ String.substring n m s)).
    f_equal. apply IH. lia.
Qed.

(** [HasSuffix] holds exactly of the strings that end in the suffix. *)
Lemma HasSuffix_spec (s suffix : string) :
  HasSuffix s suffix = true ↔ ∃ stem, s = stem ++ suffix.
Proof.
  unfold HasSuffix; rewrite andb_true_iff, Nat.leb_le, String.eqb_eq. split.
  - intros [Hle Heq].
    exists (String.substring 0 (String.length s - String.length suffix) s).
    pose proof (substring_split s (String.length s - String.length suffix)
                  (String.length suffix)) as Hs.
    rewrite Heq in Hs. apply Hs. lia.
  - intros [stem ->]. rewrite string_app_length. split; [lia |].
    replace (String.length stem + String.length suffix - String.length suffix)
      with (String.length stem) by lia.
    rewrite substring_skip. apply substring_whole.
Qed.

Lemma isEmpty_true (s : string) : isEmpty s = true ↔ s = EmptyString.
Proof. apply String.eqb_eq. Qed.

Lemma isEmpty_false (s : string) : isEmpty s = false ↔ s ≠ EmptyString.
Proof. apply String.eqb_neq. Qed.

Local Open Scope list_scope.

(** ** The process monad *)

Lemma proc_bind_ret_r {A} (c : Proc A) (w : World) :
  Process.bind c Process.ret w = c w.
Proof. unfold Process.bind. by destruct (c w) as [[a|code] w']. Qed.

Lemma proc_bind_ext {A B} (c : Proc A) (k1 k2 : A → Proc B) (w : World) :
  (∀ a w', k1 a w' = k2 a w') → Process.bind c k1 w = Process.bind c k2 w.
Proof. intros Hk. unfold Process.bind. destruct (c w) as [[a|code] w']; auto. Qed.

Lemma proc_bind_assoc {A B C} (c : Proc A) (k : A → Proc B) (h : B → Proc C) w :
  Process.bind (Process.bind c k) h w
  = Process.bind c (λ a, Process.bind (k a) h) w.
Proof. unfold Process.bind. by destruct (c w) as [[a|code] w']. Qed.

Lemma die_run {A} (err : string) (w : World) :
  die (A := A) err w = (Exit 1, write_stderr (err +:+ nl) w).
Proof. reflexivity. Qed.

(** ** The resolver *)

Section ResolverFacts.
Context {Expr : Type}.
Variable ExpressionType : Expr → result Type'.

Lemma foldl_seq_lookup {A B} (g : B → A → B) (l : list A) :
  ∀ (pre : list A) (b : B),
    foldl (λ b i, match (pre ++ l) !! i with
                  | Some x => g b x
                  | None => b
                  end) b (seq (length pre) (length l))
    = foldl g b l.
Proof.
  induction l as [|x l IH]; intros pre b; [done |].
  cbn [length seq foldl].
  rewrite list_lookup_middle by done.
  specialize (IH (pre ++ [x]) (g b x)).
  rewrite <- app_assoc, length_app in IH. cbn in IH.
  by rewrite Nat.add_1_r in IH.
Qed.

(** The index loop of [processInterface] stores the methods one after the
    other. *)
Lemma processInterface_foldl (v : visitor) (t : Interface) :
  processInterface v t
  = foldl (λ v f, set_method (Name f) (Type_ f) v) v (allMethods t).
Proof.
  unfold processInterface, NumMethods, Method.
  apply (foldl_seq_lookup (λ v f, set_method (Name f) (Type_ f) v)
           (allMethods t) []).
Qed.

Lemma processInterface_sourceInterface (v : visitor) (t : Interface) :
  sourceInterface (processInterface v t) = sourceInterface v.
Proof.
  rewrite processInterface_foldl. revert v.
  induction (allMethods t) as [|f l IH]; intros v; [done |].
  cbn [foldl]. by rewrite IH.
Qed.

Lemma last_filter_cons {A} (P : A → Prop) `{∀ x, Decision (P x)} (x : A) (l : list A) :
  last (filter P (x :: l))
  = match last (filter P l) with
    | Some y => Some y
    | None => if decide (P x) then Some x else None
    end.
Proof.
  rewrite filter_cons. destruct (decide (P x)) as [Hx|Hx].
  - destruct (filter P l) as [|y l'] eqn:E; [done |].
    rewrite last_cons. by destruct (last (y :: l')) eqn:E'.
  - by destruct (last (filter P l)).
Qed.

Lemma processInterface_lookup (v : visitor) (t : Interface) (n : string) :
  methods (processInterface v t) !! n
  = match declared t n with
    | Some f => Some (Type_ f)
    | None => methods v !! n
    end.
Proof.
  rewrite processInterface_foldl. unfold declared. revert v.
  induction (allMethods t) as [|f l IH]; intros v; [done |].
  cbn [foldl]. rewrite IH, last_filter_cons.
  destruct (last (filter (λ f0, Name f0 = n) l)) as [g|]; [done |].
  cbn [set_method methods]. destruct (decide (Name f = n)) as [<-|Hne].
  - by rewrite lookup_insert_eq.
  - by rewrite lookup_insert_ne.
Qed.

Lemma declared_Some (t : Interface) (n : string) (f : Func) :
  declared t n = Some f → f ∈ allMethods t ∧ Name f = n.
Proof.
  unfold declared. intros Hl.
  assert (f ∈ filter (λ f, Name f = n) (allMethods t)) as Hin.
  { apply last_Some in Hl as [l' ->]. set_solver. }
  by apply list_elem_of_filter in Hin as [? ?].
Qed.

Lemma declared_None (t : Interface) (n : string) :
  declared t n = None ↔ n ∉ Name <$> allMethods t.
Proof.
  unfold declared. rewrite last_None. split.
  - intros Hnil Hin. apply list_elem_of_fmap in Hin as (f & -> & Hf).
    assert (f ∈ filter (λ g, Name g = Name f) (allMethods t)) as Hin
      by by apply list_elem_of_filter.
    rewrite Hnil in Hin. by apply elem_of_nil in Hin.
  - intros Hnot. destruct (filter _ _) as [|f l] eqn:E; [done |].
    assert (f ∈ filter (λ g, Name g = n) (allMethods t)) as Hin
      by (rewrite E; left).
    apply list_elem_of_filter in Hin as [<- Hin].
    exfalso. apply Hnot. apply list_elem_of_fmap. eauto.
Qed.



(** [Visit] does not look at the children of a type specification, and
    does nothing on [nil]. *)
Lemma Visit_children (v : visitor) n e cs :
  Visit ExpressionType v (Some (TypeSpec n e cs))
  = Visit ExpressionType v (Some (TypeSpec n e [])).
Proof. reflexivity. Qed.

Lemma Walk_unfold (v : visitor) (node : Node Expr) :
  Walk ExpressionType v node
  = (let* v1 := Visit ExpressionType v (Some node) in
     let* v2 := walkFiles ExpressionType v1 (children node) in
     Visit ExpressionType v2 None)%proc.
Proof. by destruct node. Qed.

Lemma visitSpecs_app (v : visitor) (l1 l2 : list (string * Expr)) (w : World) :
  visitSpecs ExpressionType v (l1 ++ l2) w
  = (let* v' := visitSpecs ExpressionType v l1 in
     visitSpecs ExpressionType v' l2)%proc w.
Proof.
  revert v w. induction l1 as [|[n e] l1 IH]; intros v w; [done |].
  cbn [app visitSpecs]. rewrite proc_bind_assoc.
  apply proc_bind_ext. intros v' w'. apply IH.
Qed.

Lemma Node_Forall_ind (P : Node Expr → Prop) :
  (∀ n e cs, Forall P cs → P (TypeSpec n e cs)) →
  (∀ cs, Forall P cs → P (OtherNode cs)) →
  ∀ node, P node.
Proof.
  intros Hts Hother. fix IH 1. intros [n e cs|cs].
  - apply Hts. induction cs as [|c cs IHcs]; constructor; [apply IH | apply IHcs].
  - apply Hother. induction cs as [|c cs IHcs]; constructor; [apply IH | apply IHcs].
Qed.

Lemma walkFiles_Forall (fs : list (Node Expr)) :
  Forall (λ node, ∀ v w, Walk ExpressionType v node w
                         = visitSpecs ExpressionType v (typeSpecs node) w) fs →
  ∀ v w, walkFiles ExpressionType v fs w
         = visitSpecs ExpressionType v (packageSpecs fs) w.
Proof.
  induction 1 as [|node fs Hnode _ IH]; intros v w; [done |].
  cbn [walkFiles]. unfold packageSpecs. cbn [map concat].
  rewrite visitSpecs_app. unfold Process.bind at 1 2. rewrite Hnode.
  destruct (visitSpecs ExpressionType v (typeSpecs node) w) as [[v'|code] w']; [|done].
  apply IH.
Qed.

(** [ast.Walk] shows the visitor the type specifications of the tree, in
    order; it has no other effect on it. *)
Lemma Walk_visitSpecs (node : Node Expr) :
  ∀ v w, Walk ExpressionType v node w
         = visitSpecs ExpressionType v (typeSpecs node) w.
Proof.
  induction node as [n e cs IH|cs IH] using Node_Forall_ind; intros v w;
    rewrite Walk_unfold; cbn [children typeSpecs visitSpecs].
  - rewrite Visit_children. apply proc_bind_ext. intros v1 w1.
    etrans; [exact (proc_bind_ret_r (walkFiles ExpressionType v1 cs) w1) |].
    by apply walkFiles_Forall.
  - etrans; [exact (proc_bind_ret_r (walkFiles ExpressionType v cs) w) |].
    by apply walkFiles_Forall.
Qed.

Lemma walkFiles_visitSpecs (fs : list (Node Expr)) (v : visitor) (w : World) :
  walkFiles ExpressionType v fs w
  = visitSpecs ExpressionType v (packageSpecs fs) w.
Proof.
  apply walkFiles_Forall. apply Forall_forall. intros node _. apply Walk_visitSpecs.
Qed.

Lemma interfacesNamed_cons (src n : string) (e : Expr) (specs : list (string * Expr)) :
  interfacesNamed ExpressionType src ((n, e) :: specs)
  = match ExpressionType e with
    | Ok (TInterface t) =>
        if decide (n = src) then t :: interfacesNamed ExpressionType src specs
        else interfacesNamed ExpressionType src specs
    | _ => interfacesNamed ExpressionType src specs
    end.
Proof.
  unfold interfacesNamed. cbn.
  destruct (ExpressionType e) as [[t|descr]|err]; [|done..].
  by destruct (decide (n = src)).
Qed.

(** A walk either goes through, having run [processInterface] on the
    interfaces of the requested name and nothing else, or dies on a type
    expression without a type. *)
Lemma visitSpecs_outcome (specs : list (string * Expr)) :
  ∀ (v : visitor) (w : World),
    visitSpecs ExpressionType v specs w
    = (Continue (foldl processInterface v
                   (interfacesNamed ExpressionType (sourceInterface v) specs)), w)
    ∨ ∃ err, visitSpecs ExpressionType v specs w
             = (Exit 1, write_stderr (err +:+ nl) w).
Proof.
  induction specs as [|[n e] specs IH]; intros v w; [by left |].
  cbn [visitSpecs]. rewrite interfacesNamed_cons. unfold Visit.
  destruct (ExpressionType e) as [[t|descr]|err].
  - cbn. destruct (decide (n ≠ sourceInterface v)) as [Hne|Heq].
    + rewrite decide_False by done. apply IH.
    + apply dec_stable in Heq. rewrite decide_True by done. cbn.
      specialize (IH (processInterface v t) w).
      by rewrite processInterface_sourceInterface in IH.
  - apply IH.
  - right. by exists err.
Qed.

Lemma visitSpecs_typed (specs : list (string * Expr)) (v : visitor) (w : World) :
  typed ExpressionType specs →
  visitSpecs ExpressionType v specs w
  = (Continue (foldl processInterface v
                 (interfacesNamed ExpressionType (sourceInterface v) specs)), w).
Proof.
  revert v. induction specs as [|[n e] specs IH]; intros v Hty; [done |].
  apply Forall_cons in Hty as [[ty Hty] Hrest].
  cbn [visitSpecs]. rewrite interfacesNamed_cons. unfold Visit. rewrite Hty.
  destruct ty as [t|descr]; cbn.
  - destruct (decide (n ≠ sourceInterface v)) as [Hne|Heq].
    + rewrite decide_False by done. by apply IH.
    + apply dec_stable in Heq. rewrite decide_True by done. cbn.
      rewrite IH by done. by rewrite processInterface_sourceInterface.
  - by apply IH.
Qed.

End ResolverFacts.

(** ** The method set the resolver hands to the template *)

Section ResolverClaims.
Context {Expr : Type}.
Variable ExpressionType : Expr → result Type'.

Lemma elem_of_map_to_list_keys (m : gmap string Signature) (n : string) :
  n ∈ (map_to_list m).*1 ↔ is_Some (m !! n).
Proof.
  rewrite list_elem_of_fmap. split.
  - intros ([k sig] & -> & Hin). apply elem_of_map_to_list in Hin. by exists sig.
  - intros [sig Hsig]. exists (n, sig). split; [done |].
    by apply elem_of_map_to_list.
Qed.


Lemma processInterface_no_methods (v : visitor) (t : Interface) :
  allMethods t = [] → processInterface v t = v.
Proof. intros Hnil. rewrite processInterface_foldl. by rewrite Hnil. Qed.


End ResolverClaims.


(** ** The tool *)

Section FlagFacts.
Variable usage : string.

Lemma flagsRejected_true (fv : flagValues) :
  flagsRejected fv = true
  ↔ pkg fv = EmptyString ∨ input fv = EmptyString ∨ output fv = EmptyString
    ∨ name fv = EmptyString ∨ ¬ ∃ stem, output fv = stem +:+ ".go".
Proof.
  unfold flagsRejected.
  rewrite !orb_true_iff, !isEmpty_true, negb_true_iff, <- not_true_iff_false,
    HasSuffix_spec.
  tauto.
Qed.

Lemma flagsRejected_false (fv : flagValues) :
  flagsRejected fv = false ↔ flagsValid fv.
Proof.
  unfold flagsRejected, flagsValid.
  rewrite !orb_false_iff, !isEmpty_false, negb_false_iff, HasSuffix_spec.
  tauto.
Qed.

Lemma processFlags_rejected (fv : flagValues) (w : World) :
  flagsRejected fv = true →
  processFlags usage fv w = (Exit 1, write_stderr usage w).
Proof.
  intros Hrej. unfold processFlags, Process.bind.
  fold (flagsRejected fv). by rewrite Hrej.
Qed.

Lemma processFlags_accepted (fv : flagValues) (w : World) :
  flagsRejected fv = false →
  processFlags usage fv w
  = (Continue {| InputFile := input fv;
                 OutputFile := output fv;
                 InterfaceName := name fv;
                 Package := pkg fv;
                 StructName := if isEmpty (sname fv) then name fv +:+ "Mock"
                               else sname fv |}, w).
Proof.
  intros Hacc. unfold processFlags, Process.bind.
  fold (flagsRejected fv). by rewrite Hacc.
Qed.

(** C8.  When the flags pass the check, [processFlags] returns options whose
    struct name is the interface name followed by [Mock] if [-t] is empty,
    and the value of [-t] as it is otherwise; this is the name the template
    receives as [$structName]. *)
Theorem struct_name_default (fv : flagValues) (w : World) :
  flagsValid fv →
  ∃ opts, processFlags usage fv w = (Continue opts, w)
        ∧ InterfaceName opts = name fv
        ∧ (sname fv = EmptyString → StructName opts = name fv +:+ "Mock")
        ∧ (sname fv ≠ EmptyString → StructName opts = sname fv)
        ∧ ∀ (Program : Type) (p : Program) (destPackagePath : string),
            var (configure p destPackagePath opts) "structName" = StructName opts.
Proof.
  intros Hvalid. apply flagsRejected_false in Hvalid.
  eexists. split; [by apply processFlags_accepted |].
  cbn [InterfaceName StructName]. split; [done |]. split; [| split].
  - intros Hs. apply isEmpty_true in Hs. by rewrite Hs.
  - intros Hs. apply isEmpty_false in Hs. by rewrite Hs.
  - intros Program p dest. unfold var, configure. cbn.
    rewrite lookup_insert_ne by discriminate. rewrite lookup_insert_eq. reflexivity.
Qed.

End FlagFacts.

Section ToolClaims.
Context {Expr Param Program : Type}.
Variable usage : string.
Variable PackageOf : string → result string.
Variable filepath_Dir : string → string.
Variable Quote : string → string.
Variable Load : list string → result Program.
Variable PackageFiles : Program → string → list (Node Expr).
Variable ExpressionType : Program → Expr → result Type'.
Variable signature : Program → Signature → result string.
Variable params : Program → Signature → result (list Param).
Variable results : Program → Signature → result (list Param).
Variable Pass : list Param → string.
Variable WriteToFilename :
  Generator (Program := Program) → string → gmap string string
  → option string * gmap string string.

Local Abbreviation run' :=
  (run PackageOf filepath_Dir Quote Load PackageFiles ExpressionType
       signature params results Pass WriteToFilename).
Local Abbreviation main' :=
  (main usage PackageOf filepath_Dir Quote Load PackageFiles ExpressionType
        signature params results Pass WriteToFilename).

(** C7.  When one of [-f], [-i], [-o], [-p] is empty, or the value of [-o]
    does not end in [.go], [processFlags], and so [main], prints the usage
    text and exits with status 1; nothing else is printed and no file is
    touched. *)
Theorem invalid_flags_usage_exit_1 (fv : flagValues) (w : World) :
  input fv = EmptyString ∨ name fv = EmptyString ∨ output fv = EmptyString
  ∨ pkg fv = EmptyString ∨ ¬ (∃ stem, output fv = stem +:+ ".go") →
  processFlags usage fv w = (Exit 1, write_stderr usage w)
  ∧ main' fv w = (Exit 1, write_stderr usage w).
Proof.
  intros Hbad.
  assert (flagsRejected fv = true) as Hrej by (apply flagsRejected_true; tauto).
  split; [by apply processFlags_rejected |].
  unfold main, Process.bind. by rewrite processFlags_rejected.
Qed.

Lemma foldl_processInterface_no_methods (v : visitor) (ts : list Interface) :
  Forall (λ t, allMethods t = []) ts → foldl processInterface v ts = v.
Proof.
  induction 1 as [|t ts Ht _ IH]; [done |].
  cbn [foldl]. by rewrite processInterface_no_methods.
Qed.

(** C4, amended.  When no type specification in the package's files carries the
    requested name together with an interface type that has a method (the
    name is not declared, or is declared as another kind of type, or as an
    interface without methods), [main] exits with status 1 and the files
    are as they were before the run; and when the flags are valid, the
    package loads and its type expressions have types, what it prints is
    the message that the interface was not found or is empty. *)
Theorem resolution_failure_is_fatal (fv : flagValues) (w : World) :
  (∀ packagePath destPackagePath p,
     PackageOf (input fv) = Ok packagePath →
     PackageOf (filepath_Dir (output fv)) = Ok destPackagePath →
     Load [packagePath; destPackagePath] = Ok p →
     Forall (λ t, allMethods t = [])
       (interfacesNamed (ExpressionType p) (name fv)
          (packageSpecs (PackageFiles p packagePath)))) →
  ∃ w', main' fv w = (Exit 1, w')
      ∧ files w' = files w
      ∧ ∀ packagePath destPackagePath p,
          flagsValid fv →
          PackageOf (input fv) = Ok packagePath →
          PackageOf (filepath_Dir (output fv)) = Ok destPackagePath →
          Load [packagePath; destPackagePath] = Ok p →
          typed (ExpressionType p) (packageSpecs (PackageFiles p packagePath)) →
          w' = write_stderr (notFound (name fv) packagePath +:+ nl) w.
Proof.
  intros Hnone. unfold main, Process.bind at 1.
  destruct (flagsRejected fv) eqn:Hfl.
  { rewrite processFlags_rejected by done.
    eexists. split; [done |]. split; [done |].
    intros pp dp p Hvalid. apply flagsRejected_false in Hvalid. congruence. }
  rewrite processFlags_accepted by done.
  unfold run. cbn [InputFile OutputFile InterfaceName].
  unfold Process.bind at 1.
  destruct (PackageOf (input fv)) as [pp|err] eqn:Hpp; cbn [orDie].
  2:{ eexists. split; [by rewrite die_run |]. split; [done |]. congruence. }
  cbn [Process.ret]. unfold Process.bind at 1.
  destruct (PackageOf (filepath_Dir (output fv))) as [dp|err] eqn:Hdp; cbn [orDie].
  2:{ eexists. split; [by rewrite die_run |]. split; [done |]. congruence. }
  cbn [Process.ret]. unfold Process.bind at 1.
  destruct (Load [pp; dp]) as [p|err] eqn:Hload.
  2:{ eexists. split; [by rewrite die_run |]. split; [done |]. congruence. }
  cbn [Process.ret]. unfold Process.bind at 1.
  rewrite walkFiles_visitSpecs.
  specialize (Hnone pp dp p eq_refl eq_refl Hload).
  destruct (visitSpecs_outcome (ExpressionType p)
              (packageSpecs (PackageFiles p pp))
              {| methods := ∅; sourceInterface := name fv |} w) as [Hgo|[err Hdie]].
  - rewrite Hgo. cbn [sourceInterface].
    rewrite foldl_processInterface_no_methods by done.
    cbn [methods]. unfold Process.bind at 1.
    rewrite decide_True by apply map_size_empty.
    eexists. split; [by rewrite die_run |]. split; [done |].
    intros pp' dp' p' _ [= <-] _ _ _. done.
  - rewrite Hdie. eexists. split; [done |]. split; [done |].
    intros pp' dp' p' _ [= <-] [= <-] Hl Hty.
    assert (p' = p) as -> by congruence.
    rewrite visitSpecs_typed in Hdie by done. discriminate.
Qed.

End ToolClaims.

Lemma invalid_flags_usage_exit_1_witness :
  (input Example.flagsNoOutput = EmptyString
   ∨ name Example.flagsNoOutput = EmptyString
   ∨ output Example.flagsNoOutput = EmptyString
   ∨ pkg Example.flagsNoOutput = EmptyString
   ∨ ¬ (∃ stem, output Example.flagsNoOutput = stem +:+ ".go"))
  ∧ processFlags Example.usage Example.flagsNoOutput Example.world
    = (Exit 1, write_stderr Example.usage Example.world)
  ∧ Example.toolMain Example.flagsNoOutput Example.world
    = (Exit 1, write_stderr Example.usage Example.world).
Proof.
  assert (input Example.flagsNoOutput = EmptyString
          ∨ name Example.flagsNoOutput = EmptyString
          ∨ output Example.flagsNoOutput = EmptyString
          ∨ pkg Example.flagsNoOutput = EmptyString
          ∨ ¬ (∃ stem, output Example.flagsNoOutput = stem +:+ ".go")) as Hbad
    by (right; right; left; reflexivity).
  split; [exact Hbad |].
  exact (invalid_flags_usage_exit_1 Example.usage Example.PackageOf
           Example.filepath_Dir Example.Quote Example.Load Example.PackageFiles
           (λ _, Example.ExpressionType) Example.signature Example.params
           Example.results Example.Pass Example.WriteToFilename
           Example.flagsNoOutput Example.world Hbad).
Defined.

Lemma flags_valid : flagsValid Example.flags.
Proof.
  repeat split; try discriminate. by exists "greeter_mock".
Defined.

Lemma struct_name_default_witness :
  flagsValid Example.flags
  ∧ ∃ opts, processFlags Example.usage Example.flags Example.world
            = (Continue opts, Example.world)
          ∧ InterfaceName opts = name Example.flags
          ∧ (sname Example.flags = EmptyString
             → StructName opts = name Example.flags +:+ "Mock")
          ∧ (sname Example.flags ≠ EmptyString
             → StructName opts = sname Example.flags)
          ∧ ∀ (Program : Type) (p : Program) (destPackagePath : string),
              var (configure p destPackagePath opts) "structName" = StructName opts.
Proof.
  split; [exact flags_valid |].
  exact (struct_name_default Example.usage Example.flags Example.world flags_valid).
Defined.

Lemma no_interface_named_Config :
  ∀ packagePath destPackagePath p,
    Example.PackageOf (input Example.flagsConfig) = Ok packagePath →
    Example.PackageOf (Example.filepath_Dir (output Example.flagsConfig))
    = Ok destPackagePath →
    Example.Load [packagePath; destPackagePath] = Ok p →
    Forall (λ t, allMethods t = [])
      (interfacesNamed Example.ExpressionType (name Example.flagsConfig)
         (packageSpecs (Example.PackageFiles p packagePath))).
Proof.
  intros pp dp p _ _ [= <-]. vm_compute. constructor.
Defined.

Lemma resolution_failure_is_fatal_witness :
  (∀ packagePath destPackagePath p,
     Example.PackageOf (input Example.flagsConfig) = Ok packagePath →
     Example.PackageOf (Example.filepath_Dir (output Example.flagsConfig))
     = Ok destPackagePath →
     Example.Load [packagePath; destPackagePath] = Ok p →
     Forall (λ t, allMethods t = [])
       (interfacesNamed Example.ExpressionType (name Example.flagsConfig)
          (packageSpecs (Example.PackageFiles p packagePath))))
  ∧ ∃ w', Example.toolMain Example.flagsConfig Example.world = (Exit 1, w')
        ∧ files w' = files Example.world
        ∧ ∀ packagePath destPackagePath p,
            flagsValid Example.flagsConfig →
            Example.PackageOf (input Example.flagsConfig) = Ok packagePath →
            Example.PackageOf (Example.filepath_Dir (output Example.flagsConfig))
            = Ok destPackagePath →
            Example.Load [packagePath; destPackagePath] = Ok p →
            typed Example.ExpressionType
              (packageSpecs (Example.PackageFiles p packagePath)) →
            w' = write_stderr
                   (notFound (name Example.flagsConfig) packagePath +:+ nl)
                   Example.world.
Proof.
  split; [exact no_interface_named_Config |].
  exact (resolution_failure_is_fatal Example.usage Example.PackageOf
           Example.filepath_Dir Example.Quote Example.Load Example.PackageFiles
           (λ _, Example.ExpressionType) Example.signature Example.params
           Example.results Example.Pass Example.WriteToFilename
           Example.flagsConfig Example.world no_interface_named_Config).
Defined.

(** The tool run on the example package: a mock for [Greeter] is written;
    [Config], a struct, and [Empty], an interface without methods, end the
    run with the resolution error. *)
Lemma main_Greeter_writes_the_file :
  ∃ text, Example.toolMain Example.flags Example.world
          = (Continue tt, {| stderr := []; files := {[ "greeter_mock.go" := text ]} |}).
Proof. eexists. vm_compute. reflexivity. Qed.

Lemma main_Config_not_found :
  Example.toolMain Example.flagsConfig Example.world
  = (Exit 1,
     {| stderr := ["interface Config was not found in example.com/greeter or it's an empty interface"
                   +:+ nl];
        files := ∅ |}).
Proof. vm_compute. reflexivity. Qed.

Lemma main_Empty_not_found :
  Example.toolMain Example.flagsEmpty Example.world
  = (Exit 1,
     {| stderr := ["interface Empty was not found in example.com/greeter or it's an empty interface"
                   +:+ nl];
        files := ∅ |}).
Proof. vm_compute. reflexivity. Qed.

(** ** The renderer *)

Section RenderClaims.
Context {Param Program : Type}.
Variable signature : Program → Signature → result string.
Variable params : Program → Signature → result (list Param).
Variable results : Program → Signature → result (list Param).
Variable Pass : list Param → string.

Local Abbreviation executeTemplate' := (executeTemplate signature params results Pass).
Local Abbreviation ProcessTemplate' := (ProcessTemplate signature params results Pass).

(** What a template run leaves in the generator configured by [main]: the
    text of [template] for the struct name of the options, under the
    package name of the options. *)
Lemma executeTemplate_configure (p : Program) (dest : string) (opts : options)
    (entries : list (string * Signature)) :
  executeTemplate' (configure p dest opts) entries
  = match template (signature p) (params p) (results p) Pass
            (StructName opts) entries with
    | Ok s => Ok (write_body s (configure p dest opts))
    | Err e => Err e
    end.
Proof.
  unfold executeTemplate, result_bind.
  replace (var (configure p dest opts) "structName") with (StructName opts); [done |].
  unfold var, configure. cbn.
  rewrite lookup_insert_ne by discriminate. by rewrite lookup_insert_eq.
Qed.



End RenderClaims.



(** ** The generated mock *)

Section MockFacts.
Context {Value : Type}.
Implicit Types (st : Mock.State Value) (evs : list (Mock.Event Value)).
Implicit Types (data : gmap string Signature) (entries : list (string * Signature)).

Lemma addTrace_nil st : addTrace [] st = st.
Proof. destruct st. unfold addTrace. cbn. by rewrite app_nil_r. Qed.

Lemma addTrace_addTrace evs1 evs2 st :
  addTrace evs2 (addTrace evs1 st) = addTrace (evs1 ++ evs2) st.
Proof. unfold addTrace. cbn. by rewrite app_assoc. Qed.

Lemma emit_run (e : Mock.Event Value) st :
  Mock.emit e st = (Mock.Returned tt, addTrace [e] st).
Proof. reflexivity. Qed.

(** [range] visits every entry of the map, each once. *)
Lemma elem_of_rangeMap data (n : string) (sig : Signature) :
  (n, sig) ∈ rangeMap data ↔ data !! n = Some sig.
Proof.
  unfold rangeMap. rewrite merge_sort_Permutation. apply elem_of_map_to_list.
Qed.

Lemma elem_of_rangeMap_keys data (n : string) :
  n ∈ (rangeMap data).*1 ↔ is_Some (data !! n).
Proof.
  unfold rangeMap. rewrite merge_sort_Permutation. apply elem_of_map_to_list_keys.
Qed.

Lemma NoDup_rangeMap_keys data : NoDup (rangeMap data).*1.
Proof.
  unfold rangeMap. rewrite merge_sort_Permutation. apply NoDup_fst_map_to_list.
Qed.

(** The test of the three [if] blocks. *)
Lemma missed_test st (n : string) :
  Mock.isConfigured (Mock.XFunc st n) && (Mock.XCounter st n =? 0)%Z = true
  ↔ missed st n.
Proof.
  unfold missed. rewrite andb_true_iff, Z.eqb_eq.
  destruct (Mock.XFunc st n); cbn; rewrite ?is_Some_alt; intuition congruence.
Qed.

Lemma missed_addTrace evs st (n : string) : missed (addTrace evs st) n ↔ missed st n.
Proof. reflexivity. Qed.

Lemma filter_missed_addTrace evs st (l : list string) :
  filter (missed (addTrace evs st)) l = filter (missed st) l.
Proof. reflexivity. Qed.

Lemma CheckMocksCalled_range_run (structName : string) entries :
  ∀ st, Mock.CheckMocksCalled_range structName entries st
        = (Mock.Returned tt,
           addTrace ((λ n, Mock.Error (Mock.expectedCall structName n))
                       <$> filter (missed st) entries.*1) st).
Proof.
  induction entries as [|[n sig] entries IH]; intros st.
  - cbn. by rewrite addTrace_nil.
  - cbn [Mock.CheckMocksCalled_range fmap list_fmap fst].
    unfold Mock.bind at 1 2 3, Mock.getFunc, Mock.getCounter.
    rewrite filter_cons.
    destruct (Mock.isConfigured (Mock.XFunc st n) && (Mock.XCounter st n =? 0)%Z)
      eqn:Htest.
    + apply missed_test in Htest. rewrite decide_True by done.
      unfold Mock.t_Error. rewrite emit_run, IH, addTrace_addTrace.
      by rewrite filter_missed_addTrace.
    + apply not_true_iff_false in Htest. rewrite missed_test in Htest.
      rewrite decide_False by done. cbn. apply IH.
Qed.

Lemma ValidateCallCounters_range_run (structName : string) entries :
  ∀ st, Mock.ValidateCallCounters_range structName entries st
        = Mock.CheckMocksCalled_range structName entries st.
Proof.
  induction entries as [|[n sig] entries IH]; intros st; [done |].
  cbn [Mock.ValidateCallCounters_range Mock.CheckMocksCalled_range].
  unfold Mock.bind, Mock.getFunc, Mock.getCounter.
  destruct (Mock.isConfigured (Mock.XFunc st n) && (Mock.XCounter st n =? 0)%Z);
    cbn; apply IH.
Qed.

Lemma CheckMocksCalled_run (structName : string) data st :
  Mock.CheckMocksCalled structName data st
  = (Mock.Returned tt,
     addTrace ((λ n, Mock.Error (Mock.expectedCall structName n))
                 <$> filter (missed st) (rangeMap data).*1) st).
Proof. unfold Mock.CheckMocksCalled. apply CheckMocksCalled_range_run. Qed.

Lemma ValidateCallCounters_log (structName : string) data st :
  Mock.ValidateCallCounters structName data st
  = Mock.CheckMocksCalled structName data
      (addTrace [Mock.Log "ValidateCallCounters is deprecated please use CheckMocksCalled"]
                st).
Proof.
  unfold Mock.ValidateCallCounters, Mock.CheckMocksCalled, Mock.bind, Mock.t_Log.
  rewrite emit_run. apply ValidateCallCounters_range_run.
Qed.

Lemma ValidateCallCounters_run (structName : string) data st :
  Mock.ValidateCallCounters structName data st
  = (Mock.Returned tt,
     addTrace (Mock.Log "ValidateCallCounters is deprecated please use CheckMocksCalled"
               :: ((λ n, Mock.Error (Mock.expectedCall structName n))
                     <$> filter (missed st) (rangeMap data).*1)) st).
Proof.
  rewrite ValidateCallCounters_log, CheckMocksCalled_run, addTrace_addTrace.
  reflexivity.
Qed.

(** On a mock as the constructor returns it no method is missed. *)
Lemma filter_missed_NewMock (t : list (Mock.Event Value)) (l : list string) :
  filter (missed (Mock.NewMock t)) l = [].
Proof.
  induction l as [|n l IH]; [done |].
  rewrite filter_cons, decide_False; [done |].
  intros [[f Hf] _]. discriminate.
Qed.

Lemma AllMocksCalled_range_run entries :
  ∀ st, Mock.AllMocksCalled_range entries st
        = (Mock.Returned (if decide (Exists (missed st) entries.*1)
                          then Some false else None), st).
Proof.
  induction entries as [|[n sig] entries IH]; intros st.
  - cbn. rewrite decide_False; [done |]. intros Hex. inversion Hex.
  - cbn [Mock.AllMocksCalled_range fmap list_fmap fst].
    unfold Mock.bind at 1 2, Mock.getFunc, Mock.getCounter.
    destruct (Mock.isConfigured (Mock.XFunc st n) && (Mock.XCounter st n =? 0)%Z)
      eqn:Htest.
    + apply missed_test in Htest.
      rewrite decide_True; [done |]. by apply Exists_cons_hd.
    + apply not_true_iff_false in Htest. rewrite missed_test in Htest.
      rewrite IH. destruct (decide (Exists (missed st) entries.*1)) as [Hex|Hex].
      * rewrite decide_True; [done |]. by apply Exists_cons_tl.
      * rewrite decide_False; [done |]. rewrite Exists_cons. tauto.
Qed.

Lemma AllMocksCalled_run data st :
  Mock.AllMocksCalled data st
  = (Mock.Returned (bool_decide (¬ Exists (missed st) (rangeMap data).*1)),
     addTrace [Mock.RLock; Mock.RUnlock] st).
Proof.
  unfold Mock.AllMocksCalled, Mock.bind. rewrite emit_run, AllMocksCalled_range_run.
  rewrite emit_run, addTrace_addTrace. cbn [app].
  change (Exists (missed (addTrace [Mock.RLock] st)))
    with (Exists (missed st)).
  destruct (decide (Exists (missed st) (rangeMap data).*1)) as [Hex|Hex].
  - by rewrite bool_decide_eq_false_2 by tauto.
  - by rewrite bool_decide_eq_true_2.
Qed.

(** The forwarding method, once and for all. *)
Lemma method_run (structName methodName : string) (sig : Signature)
    (args : list Value) st :
  Mock.method structName methodName sig args st
  = match Mock.XFunc st methodName with
    | None =>
        (Mock.Goexit,
         addTrace [Mock.Lock; Mock.Unlock;
                   Mock.Fatalf (Mock.unexpectedCall structName methodName)]
                  (incremented methodName st))
    | Some f =>
        (Mock.Returned (if (0 <? length (Results sig))%nat then f args else []),
         addTrace [Mock.Lock; Mock.Unlock; Mock.Invoke methodName args]
                  (incremented methodName st))
    end.
Proof.
  unfold Mock.method, Mock.forward, Mock.bind, Mock.getFunc, incremented.
  cbn. destruct (Mock.XFunc st methodName) as [f|] eqn:Hf; cbn; rewrite ?Hf; cbn;
    unfold addTrace; cbn; by rewrite <- !app_assoc.
Qed.

Lemma forward_after_increment (structName methodName : string) (sig : Signature)
    (args : list Value) st :
  Mock.method structName methodName sig args st
  = Mock.forward structName methodName sig args
      (addTrace [Mock.Lock; Mock.Unlock] (incremented methodName st)).
Proof.
  unfold Mock.method, Mock.bind at 1 2 3. rewrite emit_run.
  unfold Mock.incrCounter at 1. rewrite emit_run.
  unfold addTrace, incremented. cbn. by rewrite <- !app_assoc.
Qed.

Lemma incremented_counter (methodName n : string) st :
  Mock.XCounter (incremented methodName st) n
  = if decide (n = methodName) then int_add (Mock.XCounter st n) 1
    else Mock.XCounter st n.
Proof. reflexivity. Qed.

Lemma int_add_1_in_range (c : Z) :
  (minInt ≤ c < maxInt)%Z → int_add c 1 = (c + 1)%Z.
Proof.
  unfold int_add, wrap, minInt, maxInt, intSize. intros Hc.
  change (2 ^ (64 - 1))%Z with 9223372036854775808%Z in *.
  change (2 ^ 64)%Z with 18446744073709551616%Z.
  rewrite Z.mod_small; lia.
Qed.

Lemma int_add_maxInt : int_add maxInt 1 = minInt.
Proof. reflexivity. Qed.

(** What each operation does to a counter. *)
Lemma exec_counter (structName : string) data (op : Op Value) st (n : string) :
  Mock.XCounter (exec structName data op st) n
  = match op with
    | OpMethod methodName _ _ =>
        if decide (n = methodName) then int_add (Mock.XCounter st n) 1
        else Mock.XCounter st n
    | _ => Mock.XCounter st n
    end.
Proof.
  destruct op as [methodName sig args| | |]; cbn [exec].
  - rewrite method_run. by destruct (Mock.XFunc st methodName).
  - by rewrite ValidateCallCounters_run.
  - by rewrite CheckMocksCalled_run.
  - by rewrite AllMocksCalled_run.
Qed.

End MockFacts.

Section MockClaims.
Context {Value : Type}.
Implicit Types (st : Mock.State Value) (data : gmap string Signature).

(** C2.  A call of a forwarding method whose function field is nil ends
    the goroutine through [Fatalf], with the message
    [Unexpected call to <structName>.<methodName>], and calls no function;
    a call with a function stored in the field calls that function, once,
    on the arguments of the call, and returns: what the function returned
    when the signature has results, nothing when it has none. *)
Theorem forwarding_method (structName methodName : string) (sig : Signature)
    (args : list Value) st :
  (Mock.XFunc st methodName = None →
   Mock.method structName methodName sig args st
   = (Mock.Goexit,
      addTrace [Mock.Lock; Mock.Unlock;
                Mock.Fatalf ("Unexpected call to " +:+ structName +:+ "."
                             +:+ methodName)]
               (incremented methodName st)))
  ∧ (∀ f, Mock.XFunc st methodName = Some f →
     ∃ r, Mock.method structName methodName sig args st
          = (Mock.Returned r,
             addTrace [Mock.Lock; Mock.Unlock; Mock.Invoke methodName args]
                      (incremented methodName st))
        ∧ (Results sig ≠ [] → r = f args)
        ∧ (Results sig = [] → r = [])).
Proof.
  rewrite method_run. split.
  - by intros ->.
  - intros f ->. eexists. split; [done |].
    destruct (Results sig); cbn; split; congruence.
Qed.

(** C9.  The forwarding method runs its nil check, and what follows it, in
    the state in which the counter of the method has already been
    incremented by one (in Go's [int], whose addition is plain addition
    below the largest [int]); so a call with a nil function field leaves
    the counter incremented when [Fatalf] has been reported. *)
Theorem counter_incremented_before_check (structName methodName : string)
    (sig : Signature) (args : list Value) st :
  Mock.method structName methodName sig args st
  = Mock.forward structName methodName sig args
      (addTrace [Mock.Lock; Mock.Unlock] (incremented methodName st))
  ∧ Mock.XCounter (incremented methodName st) methodName
    = int_add (Mock.XCounter st methodName) 1
  ∧ ((minInt ≤ Mock.XCounter st methodName < maxInt)%Z →
     Mock.XCounter (incremented methodName st) methodName
     = (Mock.XCounter st methodName + 1)%Z)
  ∧ (Mock.XFunc st methodName = None →
     ∃ st', Mock.method structName methodName sig args st = (Mock.Goexit, st')
          ∧ Mock.XCounter st' methodName = int_add (Mock.XCounter st methodName) 1
          ∧ Mock.trace st'
            = Mock.trace st
              ++ [Mock.Lock; Mock.Unlock;
                  Mock.Fatalf (Mock.unexpectedCall structName methodName)]).
Proof.
  assert (Mock.XCounter (incremented methodName st) methodName
          = int_add (Mock.XCounter st methodName) 1) as Hincr.
  { rewrite incremented_counter. by rewrite decide_True. }
  split; [apply forward_after_increment |]. split; [done |]. split.
  - intros Hrange. rewrite Hincr. by apply int_add_1_in_range.
  - intros Hnil. rewrite method_run, Hnil. eexists. split; [done |].
    split; [exact Hincr | done].
Qed.

(** C3.  [AllMocksCalled] returns, and it returns true exactly when every
    method of the method map with a function stored in its field has a
    counter other than zero; the counter of a method whose field is nil has
    no bearing on the result. *)
Theorem AllMocksCalled_iff data st :
  (∃ b, Mock.AllMocksCalled data st
        = (Mock.Returned b, addTrace [Mock.RLock; Mock.RUnlock] st)
      ∧ (b = true ↔ ∀ n, is_Some (data !! n) →
                         is_Some (Mock.XFunc st n) → Mock.XCounter st n ≠ 0%Z))
  ∧ (∀ n c, Mock.XFunc st n = None →
            (Mock.AllMocksCalled data (Mock.setCounter n c st)).1
            = (Mock.AllMocksCalled data st).1).
Proof.
  split.
  - eexists. split; [apply AllMocksCalled_run |].
    rewrite bool_decide_eq_true, Exists_exists. split.
    + intros Hnone n Hn Hf Hc. apply Hnone. exists n.
      split; [by apply elem_of_rangeMap_keys | done].
    + intros Hall (n & Hn & Hf & Hc). apply elem_of_rangeMap_keys in Hn.
      by apply (Hall n).
  - intros n c Hnil. rewrite !AllMocksCalled_run. cbn [fst]. f_equal.
    apply bool_decide_ext. apply not_iff_compat. rewrite !Exists_exists.
    apply exist_proper. intros k. apply and_iff_compat_l.
    unfold missed, Mock.setCounter. cbn.
    destruct (decide (k = n)) as [->|Hne]; [|done].
    rewrite Hnil. split; intros [[f Hf] _]; discriminate.
Qed.

(** C6.  [ValidateCallCounters] logs the deprecation notice and then does
    what [CheckMocksCalled] does: both call [m.t.Error], with the message
    [Expected call to <structName>.<methodName>], for the methods, each
    once, that have a function stored and a zero counter, and for no other;
    neither changes a field of the mock. *)
Theorem ValidateCallCounters_as_CheckMocksCalled (structName : string) data st :
  Mock.ValidateCallCounters structName data st
  = Mock.CheckMocksCalled structName data
      (addTrace [Mock.Log "ValidateCallCounters is deprecated please use CheckMocksCalled"]
                st)
  ∧ Mock.CheckMocksCalled structName data st
    = (Mock.Returned tt,
       addTrace ((λ n, Mock.Error ("Expected call to " +:+ structName +:+ "." +:+ n))
                   <$> filter (missed st) (rangeMap data).*1) st)
  ∧ Mock.ValidateCallCounters structName data st
    = (Mock.Returned tt,
       addTrace (Mock.Log "ValidateCallCounters is deprecated please use CheckMocksCalled"
                 :: ((λ n, Mock.Error ("Expected call to " +:+ structName +:+ "." +:+ n))
                       <$> filter (missed st) (rangeMap data).*1)) st)
  ∧ NoDup (filter (missed st) (rangeMap data).*1)
  ∧ ∀ n, n ∈ filter (missed st) (rangeMap data).*1
         ↔ is_Some (data !! n) ∧ is_Some (Mock.XFunc st n)
           ∧ Mock.XCounter st n = 0%Z.
Proof.
  split; [apply ValidateCallCounters_log |].
  split; [apply CheckMocksCalled_run |].
  split; [apply ValidateCallCounters_run |]. split.
  - apply NoDup_filter, NoDup_rangeMap_keys.
  - intros n. rewrite list_elem_of_filter, elem_of_rangeMap_keys.
    unfold missed. tauto.
Qed.

(** C10, amended.  On the mock the constructor returns every function field
    is nil and every counter zero; [AllMocksCalled] returns true on it,
    [CheckMocksCalled] reports nothing and [ValidateCallCounters] nothing
    but its deprecation notice.  In any state, an operation of the mock
    leaves a counter as it is or adds one to it in Go's [int], so it does
    not decrease a counter that is below the largest [int]. *)
Theorem fresh_mock_and_counters (structName : string) data
    (t : list (Mock.Event Value)) :
  (∀ n, Mock.XFunc (Mock.NewMock t) n = None
        ∧ Mock.XCounter (Mock.NewMock t) n = 0%Z)
  ∧ Mock.AllMocksCalled data (Mock.NewMock t)
    = (Mock.Returned true, addTrace [Mock.RLock; Mock.RUnlock] (Mock.NewMock t))
  ∧ Mock.CheckMocksCalled structName data (Mock.NewMock t)
    = (Mock.Returned tt, Mock.NewMock t)
  ∧ Mock.ValidateCallCounters structName data (Mock.NewMock t)
    = (Mock.Returned tt,
       Mock.NewMock
         (t ++ [Mock.Log "ValidateCallCounters is deprecated please use CheckMocksCalled"]))
  ∧ ∀ (op : Op Value) st n,
      (Mock.XCounter (exec structName data op st) n = Mock.XCounter st n
       ∨ Mock.XCounter (exec structName data op st) n
         = int_add (Mock.XCounter st n) 1)
      ∧ ((minInt ≤ Mock.XCounter st n < maxInt)%Z →
         (Mock.XCounter st n ≤ Mock.XCounter (exec structName data op st) n)%Z).
Proof.
  split; [done |]. split; [| split; [| split]].
  - rewrite AllMocksCalled_run. rewrite bool_decide_eq_true_2; [done |].
    rewrite Exists_exists. intros (n & _ & [f Hf] & _). discriminate.
  - rewrite CheckMocksCalled_run, filter_missed_NewMock.
    cbn [fmap list_fmap]. by rewrite addTrace_nil.
  - rewrite ValidateCallCounters_run, filter_missed_NewMock. reflexivity.
  - intros op st n. rewrite exec_counter.
    destruct op as [methodName sig args| | |];
      [destruct (decide (n = methodName)) |..]; (split; [auto | intros Hr]);
      try lia.
    rewrite int_add_1_in_range by done. lia.
Qed.

End MockClaims.

(** ** The mock of [Greeter] *)

Lemma forwarding_method_witness :
  (Mock.XFunc Example.fresh "Greet" = None
   ∧ Mock.method "GreeterMock" "Greet" Example.greetSig ["Bob"] Example.fresh
     = (Mock.Goexit,
        addTrace [Mock.Lock; Mock.Unlock;
                  Mock.Fatalf ("Unexpected call to " +:+ "GreeterMock" +:+ "."
                               +:+ "Greet")]
                 (incremented "Greet" Example.fresh)))
  ∧ (Mock.XFunc Example.configured "Greet" = Some Example.greetFunc
     ∧ ∃ r, Mock.method "GreeterMock" "Greet" Example.greetSig ["Bob"]
              Example.configured
            = (Mock.Returned r,
               addTrace [Mock.Lock; Mock.Unlock; Mock.Invoke "Greet" ["Bob"]]
                        (incremented "Greet" Example.configured))
          ∧ (Results Example.greetSig ≠ [] → r = Example.greetFunc ["Bob"])
          ∧ (Results Example.greetSig = [] → r = [])).
Proof.
  split.
  - split; [reflexivity |].
    apply (proj1 (forwarding_method "GreeterMock" "Greet" Example.greetSig
                    ["Bob"] Example.fresh)).
    reflexivity.
  - split; [reflexivity |].
    apply (proj2 (forwarding_method "GreeterMock" "Greet" Example.greetSig
                    ["Bob"] Example.configured)).
    reflexivity.
Defined.

Lemma fresh_counter_in_range :
  (minInt ≤ Mock.XCounter Example.fresh "Greet" < maxInt)%Z.
Proof. split; vm_compute; [discriminate | reflexivity]. Defined.

Lemma counter_incremented_before_check_witness :
  (minInt ≤ Mock.XCounter Example.fresh "Greet" < maxInt)%Z
  ∧ Mock.XFunc Example.fresh "Greet" = None
  ∧ Mock.method "GreeterMock" "Greet" Example.greetSig ["Bob"] Example.fresh
    = Mock.forward "GreeterMock" "Greet" Example.greetSig ["Bob"]
        (addTrace [Mock.Lock; Mock.Unlock] (incremented "Greet" Example.fresh))
  ∧ Mock.XCounter (incremented "Greet" Example.fresh) "Greet"
    = (Mock.XCounter Example.fresh "Greet" + 1)%Z
  ∧ ∃ st', Mock.method "GreeterMock" "Greet" Example.greetSig ["Bob"] Example.fresh
           = (Mock.Goexit, st')
         ∧ Mock.XCounter st' "Greet"
           = int_add (Mock.XCounter Example.fresh "Greet") 1
         ∧ Mock.trace st'
           = Mock.trace Example.fresh
             ++ [Mock.Lock; Mock.Unlock;
                 Mock.Fatalf (Mock.unexpectedCall "GreeterMock" "Greet")].
Proof.
  destruct (counter_incremented_before_check "GreeterMock" "Greet"
              Example.greetSig ["Bob"] Example.fresh) as (Hfwd & _ & Hplus & Hnil).
  split; [exact fresh_counter_in_range |]. split; [reflexivity |].
  split; [exact Hfwd |]. split; [exact (Hplus fresh_counter_in_range) |].
  exact (Hnil eq_refl).
Defined.

Lemma AllMocksCalled_iff_witness :
  Mock.XFunc Example.fresh "Greet" = None
  ∧ (Mock.AllMocksCalled Example.data (Mock.setCounter "Greet" 5 Example.fresh)).1
    = (Mock.AllMocksCalled Example.data Example.fresh).1.
Proof.
  split; [reflexivity |].
  apply (proj2 (AllMocksCalled_iff Example.data Example.fresh)). reflexivity.
Defined.

Lemma fresh_mock_and_counters_witness :
  (minInt ≤ Mock.XCounter Example.fresh "Greet" < maxInt)%Z
  ∧ (Mock.XCounter Example.fresh "Greet"
     ≤ Mock.XCounter (exec "GreeterMock" Example.data Example.callGreet
                        Example.fresh) "Greet")%Z.
Proof.
  split; [exact fresh_counter_in_range |].
  destruct (fresh_mock_and_counters (Value := string) "GreeterMock" Example.data [])
    as (_ & _ & _ & _ & Hops).
  exact (proj2 (Hops Example.callGreet Example.fresh "Greet")
           fresh_counter_in_range).
Defined.

(** The scenario of the specification: [AllMocksCalled] is false once
    [GreetFunc] is set, true after a call of [Greet], which returns what
    [GreetFunc] returns; without [GreetFunc] the call fails the test. *)
Lemma Greeter_scenario :
  (Mock.AllMocksCalled Example.data Example.fresh).1 = Mock.Returned true
  ∧ (Mock.AllMocksCalled Example.data Example.configured).1 = Mock.Returned false
  ∧ (Mock.method "GreeterMock" "Greet" Example.greetSig ["Bob"]
       Example.configured).1
    = Mock.Returned ["hello Bob"]
  ∧ (Mock.AllMocksCalled Example.data
       (exec "GreeterMock" Example.data Example.callGreet Example.configured)).1
    = Mock.Returned true
  ∧ Mock.trace (exec "GreeterMock" Example.data Example.callGreet Example.fresh)
    = [Mock.Lock; Mock.Unlock; Mock.Fatalf "Unexpected call to GreeterMock.Greet"]
  ∧ Mock.trace (exec "GreeterMock" Example.data OpValidateCallCounters
                  Example.configured)
    = [Mock.Log "ValidateCallCounters is deprecated please use CheckMocksCalled";
       Mock.Error "Expected call to GreeterMock.Greet"]
  ∧ Mock.trace (exec "GreeterMock" Example.data OpCheckMocksCalled
                  Example.configured)
    = [Mock.Error "Expected call to GreeterMock.Greet"].
Proof. repeat split; vm_compute; reflexivity. Qed.

(** ** The counter at the largest [int] *)

Section CounterWraps.
Context {Value : Type}.
Variables (structName : string) (data : gmap string Signature).
Variables (methodName : string) (sig : Signature) (args : list Value).

Lemma execAll_cons (op : Op Value) (ops : list (Op Value)) (st : Mock.State Value) :
  execAll structName data (op :: ops) st
  = execAll structName data ops (exec structName data op st).
Proof. reflexivity. Qed.

Lemma execAll_repeat_counter (k : nat) :
  ∀ st : Mock.State Value,
    (minInt ≤ Mock.XCounter st methodName)%Z →
    (Mock.XCounter st methodName + Z.of_nat k ≤ maxInt)%Z →
    Mock.XCounter (execAll structName data
                     (repeat (OpMethod methodName sig args) k) st) methodName
    = (Mock.XCounter st methodName + Z.of_nat k)%Z.
Proof.
  induction k as [|k IH]; intros st Hmin Hmax.
  - cbn. lia.
  - cbn [repeat]. rewrite execAll_cons.
    assert (Mock.XCounter (exec structName data (OpMethod methodName sig args) st)
              methodName = (Mock.XCounter st methodName + 1)%Z) as Hstep.
    { rewrite exec_counter, decide_True by done.
      apply int_add_1_in_range. lia. }
    rewrite IH; rewrite Hstep; lia.
Qed.

Lemma execAll_reachable (ops : list (Op Value)) :
  ∀ st : Mock.State Value,
    reachable structName data st →
    reachable structName data (execAll structName data ops st).
Proof.
  induction ops as [|op ops IH]; intros st Hst; [done |].
  rewrite execAll_cons. apply IH. by constructor.
Qed.

End CounterWraps.

Lemma maxInt_to_nat : Z.of_nat (Z.to_nat maxInt) = maxInt.
Proof. apply Z2Nat.id. discriminate. Qed.

Lemma worn_reachable : reachable "GreeterMock" Example.data Example.worn.
Proof.
  unfold Example.worn. apply execAll_reachable.
  unfold Example.configured, Example.fresh. repeat constructor.
Qed.

Lemma worn_counter : Mock.XCounter Example.worn "Greet" = maxInt.
Proof.
  unfold Example.worn, Example.callGreet.
  rewrite execAll_repeat_counter.
  - change (Mock.XCounter Example.configured "Greet") with 0%Z.
    rewrite maxInt_to_nat. apply Z.add_0_l.
  - discriminate.
  - change (Mock.XCounter Example.configured "Greet") with 0%Z.
    rewrite maxInt_to_nat. reflexivity.
Qed.

(** C10 as it stands fails: when [Greet] has been called as often as the
    largest [int] counts, the counter is that [int], and one more call
    takes it to the smallest. *)
Lemma counter_decreases_at_maxInt :
  ¬ neverDecreases string "GreeterMock" Example.data.
Proof.
  intros Hnever.
  specialize (Hnever Example.worn worn_reachable Example.callGreet "Greet").
  unfold Example.callGreet in Hnever.
  rewrite exec_counter, decide_True in Hnever by done.
  rewrite worn_counter, int_add_maxInt in Hnever.
  by apply Hnever.
Qed.

Lemma worn_next_call :
  Mock.XCounter Example.worn "Greet" = maxInt
  ∧ Mock.XCounter (exec "GreeterMock" Example.data Example.callGreet Example.worn)
      "Greet" = minInt
  ∧ (minInt < maxInt)%Z.
Proof.
  split; [apply worn_counter |]. split; [| reflexivity].
  unfold Example.callGreet.
  rewrite exec_counter, decide_True by done.
  by rewrite worn_counter.
Qed.

(** The same in two steps of a test: the counter field set to the largest
    [int], then one call. *)
Lemma counter_set_to_maxInt_then_call :
  Mock.XCounter (Mock.setCounter "Greet" maxInt Example.configured) "Greet" = maxInt
  ∧ Mock.XCounter
      (exec "GreeterMock" Example.data Example.callGreet
         (Mock.setCounter "Greet" maxInt Example.configured)) "Greet"
    = minInt.
Proof. split; reflexivity. Qed.

(** ** The requested name declared more than once *)


(** The two declarations of [Shadow.shadow_go] give a map with the methods
    of both. *)
Lemma shadowed_interfaces_are_merged :
  ∃ v, walkFiles Example.ExpressionType
         {| methods := ∅; sourceInterface := "Greeter" |}
         [Shadow.shadow_go] Example.world
       = (Continue v, Example.world)
     ∧ NumMethods Example.Greeter = 1
     ∧ size (methods v) = 2
     ∧ methods v !! "Bye" = Some Shadow.byeSig.
Proof. eexists. split; [reflexivity |]. by vm_compute. Qed.

(** C4 as it stands fails: [Config] names a struct type at package level,
    and yet, a function declaring a local interface [Config], [main]
    returns and has written the file. *)
Lemma shadowed_struct_is_resolved :
  ¬ (namesNonInterface Example.ExpressionType (name Example.flagsConfig)
       (packageSpecs Shadow.config_program) →
     ∃ w', Shadow.toolMain Example.flagsConfig Example.world = (Exit 1, w')
         ∧ files w' = files Example.world).
Proof.
  intros Hclaim. destruct Hclaim as (w' & Hexit & _).
  - exists (TOther "struct{}"), "struct{}". split; [left | reflexivity].
  - vm_compute in Hexit. discriminate.
Qed.

Lemma shadowed_struct_file_written :
  ∃ text, Shadow.toolMain Example.flagsConfig Example.world
          = (Continue tt, {| stderr := []; files := {[ "config_mock.go" := text ]} |}).
Proof. eexists. vm_compute. reflexivity. Qed.

(** * Further properties *)

(** ** The walk and [processInterface] *)

Section ResolverMore.
Context {Expr : Type}.
Variable ExpressionType : Expr → result Type'.

Lemma visitor_eq (a b : visitor) :
  methods a = methods b → sourceInterface a = sourceInterface b → a = b.
Proof. destruct a, b. cbn. by intros -> ->. Qed.

Lemma foldl_processInterface_sourceInterface (ts : list Interface) :
  ∀ v, sourceInterface (foldl processInterface v ts) = sourceInterface v.
Proof.
  induction ts as [|t ts IH]; intros v; [done |].
  cbn [foldl]. by rewrite IH, processInterface_sourceInterface.
Qed.

Lemma processInterface_keeps (v : visitor) (t : Interface) (n : string) :
  is_Some (methods v !! n) → is_Some (methods (processInterface v t) !! n).
Proof.
  intros Hn. rewrite processInterface_lookup. by destruct (declared t n).
Qed.

Lemma foldl_processInterface_keeps (ts : list Interface) (n : string) :
  ∀ v, is_Some (methods v !! n) →
       is_Some (methods (foldl processInterface v ts) !! n).
Proof.
  induction ts as [|t ts IH]; intros v Hn; [done |].
  cbn [foldl]. apply IH. by apply processInterface_keeps.
Qed.

(** X1.  When every type expression of the files has a type, the walk over
    the files returns, prints nothing, and leaves the visitor as
    [processInterface] leaves it when run, in the order of the traversal,
    on every interface type that a type specification of the requested name
    resolves to, wherever in the trees the specification stands. *)
Theorem walk_runs_processInterface_in_order (fs : list (Node Expr))
    (v : visitor) (w : World) :
  typed ExpressionType (packageSpecs fs) →
  walkFiles ExpressionType v fs w
  = (Continue (foldl processInterface v
                 (interfacesNamed ExpressionType (sourceInterface v)
                    (packageSpecs fs))), w).
Proof.
  intros Hty. rewrite walkFiles_visitSpecs. by apply visitSpecs_typed.
Qed.

(** X2.  The walk ends the process at the first type specification whose
    type expression has no type, whatever the name of that specification:
    it prints the error of [ExpressionType] and exits with status 1. *)
Theorem walk_dies_on_first_untyped (fs : list (Node Expr)) (v : visitor)
    (w : World) (pre post : list (string * Expr)) (n : string) (e : Expr)
    (err : string) :
  packageSpecs fs = pre ++ (n, e) :: post →
  typed ExpressionType pre →
  ExpressionType e = Err err →
  walkFiles ExpressionType v fs w = (Exit 1, write_stderr (err +:+ nl) w).
Proof.
  intros Hspecs Hpre Herr.
  rewrite walkFiles_visitSpecs, Hspecs, visitSpecs_app.
  unfold Process.bind at 1. rewrite visitSpecs_typed by done.
  cbn [visitSpecs]. unfold Process.bind at 1, Visit, Process.bind at 1.
  by rewrite Herr.
Qed.

Lemma foldl_set_method_size (l : list Func) :
  ∀ v, (size (methods (foldl (λ v f, set_method (Name f) (Type_ f) v) v l))
        ≤ size (methods v) + length l)%nat.
Proof.
  induction l as [|f l IH]; intros v; [cbn; lia |].
  cbn [foldl length]. etrans; [apply IH |].
  cbn [set_method methods].
  destruct (methods v !! Name f) as [sig|] eqn:E.
  - rewrite map_size_insert_Some by done. lia.
  - rewrite map_size_insert_None by done. lia.
Qed.

(** X3.  [processInterface] stores, for every method name of the interface,
    the signature declared under it, and leaves the entries of all other
    names as they were: the method names of the map afterwards are those
    it had and those of the interface, and it has grown by at most the
    number of methods of the interface. *)
Theorem processInterface_overwrites_and_keeps (v : visitor) (t : Interface) :
  (∀ f, f ∈ allMethods t →
        ∃ g, declared t (Name f) = Some g
             ∧ methods (processInterface v t) !! Name f = Some (Type_ g))
  ∧ (∀ n, n ∉ Name <$> allMethods t →
          methods (processInterface v t) !! n = methods v !! n)
  ∧ dom (methods (processInterface v t))
    = dom (methods v) ∪ list_to_set (Name <$> allMethods t)
  ∧ (size (methods (processInterface v t)) ≤ size (methods v) + NumMethods t)%nat.
Proof.
  assert (dom (methods (processInterface v t))
          = dom (methods v) ∪ list_to_set (Name <$> allMethods t)) as Hdom.
  { apply set_eq. intros n.
    rewrite elem_of_union, !elem_of_dom, elem_of_list_to_set,
      processInterface_lookup.
    destruct (declared t n) as [g|] eqn:E.
    - apply declared_Some in E as [Hg <-]. split; [intros _; right | by eauto].
      by apply list_elem_of_fmap_2.
    - apply declared_None in E. tauto. }
  split; [| split; [| split; [exact Hdom |]]].
  - intros f Hf. destruct (declared t (Name f)) as [g|] eqn:E.
    + exists g. split; [done |]. by rewrite processInterface_lookup, E.
    + apply declared_None in E. exfalso. apply E. by apply list_elem_of_fmap_2.
  - intros n Hn. apply declared_None in Hn.
    by rewrite processInterface_lookup, Hn.
  - rewrite processInterface_foldl. apply foldl_set_method_size.
Qed.

(** X4.  Running [processInterface] a second time on the same interface
    changes nothing. *)
Theorem processInterface_idempotent (v : visitor) (t : Interface) :
  processInterface (processInterface v t) t = processInterface v t.
Proof.
  apply visitor_eq; [| by rewrite !processInterface_sourceInterface].
  apply map_eq. intros n. rewrite processInterface_lookup.
  destruct (declared t n) as [g|] eqn:E; [| done].
  by rewrite processInterface_lookup, E.
Qed.

(** X5.  A walk that returns has printed nothing and touched no file, has
    kept the requested name, and has kept an entry for every method name
    the map had before. *)
Theorem walk_keeps_methods (fs : list (Node Expr)) (v v' : visitor)
    (w w' : World) :
  walkFiles ExpressionType v fs w = (Continue v', w') →
  w' = w
  ∧ sourceInterface v' = sourceInterface v
  ∧ ∀ n, is_Some (methods v !! n) → is_Some (methods v' !! n).
Proof.
  rewrite walkFiles_visitSpecs. intros Hwalk.
  destruct (visitSpecs_outcome ExpressionType (packageSpecs fs) v w)
    as [Hgo|[err Hdie]]; [| congruence].
  rewrite Hgo in Hwalk. injection Hwalk as <- <-.
  split; [done |]. split; [apply foldl_processInterface_sourceInterface |].
  intros n. apply foldl_processInterface_keeps.
Qed.

End ResolverMore.

Lemma shadow_typed : typed Example.ExpressionType (packageSpecs [Shadow.shadow_go]).
Proof. repeat constructor; by eexists. Defined.

Lemma walk_runs_processInterface_in_order_witness :
  typed Example.ExpressionType (packageSpecs [Shadow.shadow_go])
  ∧ walkFiles Example.ExpressionType
      {| methods := ∅; sourceInterface := "Greeter" |}
      [Shadow.shadow_go] Example.world
    = (Continue (foldl processInterface
                   {| methods := ∅; sourceInterface := "Greeter" |}
                   [Example.Greeter; Shadow.LocalGreeter]), Example.world).
Proof.
  split; [exact shadow_typed |].
  exact (walk_runs_processInterface_in_order Example.ExpressionType
           [Shadow.shadow_go] {| methods := ∅; sourceInterface := "Greeter" |}
           Example.world shadow_typed).
Defined.

Lemma broken_typed_prefix : typed Untyped.ExpressionType [].
Proof. constructor. Defined.

Lemma walk_dies_on_first_untyped_witness :
  packageSpecs [Untyped.broken_go]
  = [] ++ ("Broken", None)
       :: [("Greeter", Some (TInterface Example.Greeter))]
  ∧ typed Untyped.ExpressionType []
  ∧ Untyped.ExpressionType None = Err "expression not found"
  ∧ walkFiles Untyped.ExpressionType
      {| methods := ∅; sourceInterface := "Greeter" |}
      [Untyped.broken_go] Example.world
    = (Exit 1, write_stderr ("expression not found" +:+ nl) Example.world).
Proof.
  split; [reflexivity |]. split; [exact broken_typed_prefix |].
  split; [reflexivity |].
  exact (walk_dies_on_first_untyped Untyped.ExpressionType [Untyped.broken_go]
           {| methods := ∅; sourceInterface := "Greeter" |} Example.world
           [] [("Greeter", Some (TInterface Example.Greeter))]
           "Broken" None "expression not found"
           eq_refl broken_typed_prefix eq_refl).
Defined.

Lemma walk_Greeter :
  walkFiles Example.ExpressionType
    {| methods := {[ "Close" := Shadow.byeSig ]}; sourceInterface := "Greeter" |}
    Example.program Example.world
  = (Continue (processInterface
                 {| methods := {[ "Close" := Shadow.byeSig ]};
                    sourceInterface := "Greeter" |} Example.Greeter),
     Example.world).
Proof. reflexivity. Defined.

Lemma walk_keeps_methods_witness :
  walkFiles Example.ExpressionType
    {| methods := {[ "Close" := Shadow.byeSig ]}; sourceInterface := "Greeter" |}
    Example.program Example.world
  = (Continue (processInterface
                 {| methods := {[ "Close" := Shadow.byeSig ]};
                    sourceInterface := "Greeter" |} Example.Greeter),
     Example.world)
  ∧ Example.world = Example.world
  ∧ sourceInterface (processInterface
                       {| methods := {[ "Close" := Shadow.byeSig ]};
                          sourceInterface := "Greeter" |} Example.Greeter)
    = "Greeter"
  ∧ ∀ n, is_Some (({[ "Close" := Shadow.byeSig ]} : gmap string Signature) !! n) →
         is_Some (methods (processInterface
                             {| methods := {[ "Close" := Shadow.byeSig ]};
                                sourceInterface := "Greeter" |} Example.Greeter)
                  !! n).
Proof.
  split; [exact walk_Greeter |].
  exact (walk_keeps_methods Example.ExpressionType Example.program _ _ _ _
           walk_Greeter).
Defined.

(** ** [processFlags] and [main] *)

Section FlagsMore.
Variable usage : string.

Lemma append_not_empty (a b : string) : a ≠ EmptyString → a +:+ b ≠ EmptyString.
Proof. by destruct a. Qed.

(** From the values of the flag variables on, [processFlags] returns the
    options of valid values and prints nothing, and prints the usage text
    and exits with status 1 on all others. *)
Lemma processFlags_accepts_iff_valid (fv : flagValues) (w : World) :
  (flagsValid fv ∧ processFlags usage fv w = (Continue (optionsOf fv), w))
  ∨ (¬ flagsValid fv
     ∧ processFlags usage fv w = (Exit 1, write_stderr usage w)).
Proof.
  destruct (flagsRejected fv) eqn:Hfl.
  - right. split; [| by apply processFlags_rejected].
    rewrite <- flagsRejected_false. congruence.
  - left. split; [by apply flagsRejected_false |].
    by apply processFlags_accepted.
Qed.

(** X6.  [processFlags] ends in one of three ways and no other: [flag.Parse]
    ends the process itself, with the status and the output that are its
    own; or [flag.Parse] returns flag values with [-f], [-i], [-o], [-p]
    all given and [-o] ending in [.go], and [processFlags] returns the
    options and prints nothing more; or it returns other flag values, and
    [processFlags] prints the usage text and exits with status 1. *)
Theorem processFlags_ends_three_ways (flag_Parse : Proc flagValues) (w : World) :
  (∃ code w1, flag_Parse w = (Exit code, w1)
              ∧ processFlagsFrom usage flag_Parse w = (Exit code, w1))
  ∨ (∃ fv w1, flag_Parse w = (Continue fv, w1)
              ∧ flagsValid fv
              ∧ processFlagsFrom usage flag_Parse w
                = (Continue (optionsOf fv), w1))
  ∨ (∃ fv w1, flag_Parse w = (Continue fv, w1)
              ∧ ¬ flagsValid fv
              ∧ processFlagsFrom usage flag_Parse w
                = (Exit 1, write_stderr usage w1)).
Proof.
  unfold processFlagsFrom, Process.bind.
  destruct (flag_Parse w) as [[fv|code] w1] eqn:Hparse.
  - right. destruct (processFlags_accepts_iff_valid fv w1) as [[Hv ->]|[Hv ->]].
    + left. by exists fv, w1.
    + right. by exists fv, w1.
  - left. by exists code, w1.
Qed.

(** X7.  The options [processFlags] returns have no empty field: the input
    file, the interface name, the package and the struct name are not
    empty, and the output file ends in [.go]; the fields other than the
    struct name are the flag values as given. *)
Theorem processFlags_options_complete (fv : flagValues) (w w' : World)
    (opts : options) :
  processFlags usage fv w = (Continue opts, w') →
  w' = w
  ∧ InputFile opts = input fv ∧ OutputFile opts = output fv
  ∧ InterfaceName opts = name fv ∧ Package opts = pkg fv
  ∧ InputFile opts ≠ EmptyString ∧ InterfaceName opts ≠ EmptyString
  ∧ Package opts ≠ EmptyString ∧ StructName opts ≠ EmptyString
  ∧ HasSuffix (OutputFile opts) ".go" = true.
Proof.
  intros Hrun.
  destruct (flagsRejected fv) eqn:Hfl.
  { rewrite processFlags_rejected in Hrun by done. discriminate. }
  rewrite processFlags_accepted in Hrun by done. injection Hrun as <- <-.
  apply flagsRejected_false in Hfl as (Hpkg & Hin & Hout & Hname & Hgo).
  cbn. repeat split; try done.
  - destruct (isEmpty (sname fv)) eqn:Hs.
    + by apply append_not_empty.
    + by apply isEmpty_false.
  - by apply HasSuffix_spec.
Qed.

End FlagsMore.

Lemma processFlags_Greeter :
  processFlags Example.usage Example.flags Example.world
  = (Continue (optionsOf Example.flags), Example.world).
Proof. reflexivity. Defined.

Lemma processFlags_options_complete_witness :
  processFlags Example.usage Example.flags Example.world
  = (Continue (optionsOf Example.flags), Example.world)
  ∧ StructName (optionsOf Example.flags) ≠ EmptyString
  ∧ HasSuffix (OutputFile (optionsOf Example.flags)) ".go" = true.
Proof.
  split; [exact processFlags_Greeter |].
  destruct (processFlags_options_complete Example.usage Example.flags
              Example.world Example.world (optionsOf Example.flags)
              processFlags_Greeter)
    as (_ & _ & _ & _ & _ & _ & _ & _ & Hs & Hgo).
  by split.
Defined.

Section MainMore.
Context {Expr Param Program : Type}.
Variable usage : string.
Variable PackageOf : string → result string.
Variable filepath_Dir : string → string.
Variable Quote : string → string.
Variable Load : list string → result Program.
Variable PackageFiles : Program → string → list (Node Expr).
Variable ExpressionType : Program → Expr → result Type'.
Variable signature : Program → Signature → result string.
Variable params : Program → Signature → result (list Param).
Variable results : Program → Signature → result (list Param).
Variable Pass : list Param → string.
Variable WriteToFilename :
  Generator (Program := Program) → string → gmap string string
  → option string * gmap string string.

Local Abbreviation main' :=
  (main usage PackageOf filepath_Dir Quote Load PackageFiles ExpressionType
        signature params results Pass WriteToFilename).
Local Abbreviation ProcessTemplate' :=
  (ProcessTemplate signature params results Pass).

(** [main], step by step. *)
Lemma main_cases (fv : flagValues) (w : World) :
  main' fv w
  = if flagsRejected fv then (Exit 1, write_stderr usage w) else
    match PackageOf (input fv) with
    | Err err => (Exit 1, write_stderr (err +:+ nl) w)
    | Ok packagePath =>
    match PackageOf (filepath_Dir (output fv)) with
    | Err err => (Exit 1, write_stderr (err +:+ nl) w)
    | Ok destPackagePath =>
    match Load [packagePath; destPackagePath] with
    | Err err =>
        (Exit 1, write_stderr (("failed to load API package "
                                +:+ Quote packagePath +:+ ": " +:+ err) +:+ nl) w)
    | Ok p =>
    match visitSpecs (ExpressionType p)
            {| methods := ∅; sourceInterface := name fv |}
            (packageSpecs (PackageFiles p packagePath)) w with
    | (Exit code, w1) => (Exit code, w1)
    | (Continue v, w1) =>
        if decide (size (methods v) = 0)
        then (Exit 1, write_stderr (notFound (name fv) packagePath +:+ nl) w1)
        else
          match ProcessTemplate' (configure p destPackagePath (optionsOf fv))
                  (methods v) with
          | Err err => (Exit 1, write_stderr (err +:+ nl) w1)
          | Ok gen =>
              match WriteToFilename gen (output fv) (files w1) with
              | (None, fs) => (Continue tt, set_files fs w1)
              | (Some err, fs) =>
                  (Exit 1, write_stderr (err +:+ nl) (set_files fs w1))
              end
          end
    end end end end.
Proof.
  unfold main, Process.bind at 1.
  destruct (flagsRejected fv) eqn:Hfl.
  { by rewrite processFlags_rejected. }
  rewrite processFlags_accepted by done. fold (optionsOf fv).
  unfold run. cbn [InputFile OutputFile InterfaceName optionsOf].
  unfold Process.bind at 1.
  destruct (PackageOf (input fv)) as [pp|err]; cbn [orDie]; [| done].
  cbn [Process.ret]. unfold Process.bind at 1.
  destruct (PackageOf (filepath_Dir (output fv))) as [dp|err]; cbn [orDie]; [| done].
  cbn [Process.ret]. unfold Process.bind at 1.
  destruct (Load [pp; dp]) as [p|err]; [| done].
  cbn [Process.ret]. unfold Process.bind at 1.
  rewrite walkFiles_visitSpecs.
  destruct (visitSpecs _ _ _ w) as [[v|code] w1]; [| done].
  unfold Process.bind at 1.
  destruct (decide (size (methods v) = 0)); [done |].
  cbn [Process.ret]. unfold Process.bind at 1.
  fold (optionsOf fv).
  destruct (ProcessTemplate' _ _) as [gen|err]; cbn [orDie]; [| done].
  cbn [Process.ret].
  by destruct (WriteToFilename gen (output fv) (files w)) as [[err|] fs].
Qed.

(** From the values of the flag variables on, and with a loader that
    does not print: however [main] fails, it exits with status 1 and has
    printed one message; the files are as before, unless the failure is
    that of [WriteToFilename] on the [-o] path, whose error is then the
    message and whose effect on the files stays. *)
Lemma main_fails_with_status_1 (fv : flagValues) (w w' : World) (code : Z) :
  main' fv w = (Exit code, w') →
  code = 1%Z
  ∧ ∃ msg, stderr w' = stderr w ++ [msg]
         ∧ (files w' = files w
            ∨ ∃ gen err, WriteToFilename gen (output fv) (files w)
                         = (Some err, files w')
                       ∧ msg = err +:+ nl).
Proof.
  rewrite main_cases.
  destruct (flagsRejected fv).
  { intros [= <- <-]. eauto. }
  destruct (PackageOf (input fv)) as [pp|err].
  2:{ intros [= <- <-]. eauto. }
  destruct (PackageOf (filepath_Dir (output fv))) as [dp|err].
  2:{ intros [= <- <-]. eauto. }
  destruct (Load [pp; dp]) as [p|err].
  2:{ intros [= <- <-]. eauto. }
  destruct (visitSpecs_outcome (ExpressionType p)
              (packageSpecs (PackageFiles p pp))
              {| methods := ∅; sourceInterface := name fv |} w)
    as [->|[err ->]].
  2:{ intros [= <- <-]. eauto. }
  destruct (decide (size _ = 0)).
  { intros [= <- <-]. eauto. }
  destruct (ProcessTemplate' _ _) as [gen|err].
  2:{ intros [= <- <-]. eauto. }
  destruct (WriteToFilename gen (output fv) (files w)) as [[err|] fs] eqn:Hwrite;
    [| discriminate].
  intros [= <- <-]. split; [done |]. eexists. split; [done |].
  right. by exists gen, err.
Qed.

Lemma mainFrom_bind (flag_Parse : Proc flagValues) (w : World) :
  mainFrom usage PackageOf filepath_Dir Quote Load PackageFiles ExpressionType
           signature params results Pass WriteToFilename flag_Parse w
  = Process.bind flag_Parse main' w.
Proof. unfold mainFrom, processFlagsFrom, main. apply proc_bind_assoc. Qed.

(** X8.  When [main] exits, either the exit is that of [flag.Parse], with
    its status and in the state it left, or [flag.Parse] had returned and
    the status is 1; in that case the files are as [flag.Parse] left them,
    unless the failure is that of [WriteToFilename] on the [-o] path, whose
    effect on the files stays. *)
Theorem main_exit_is_parse_or_status_1 (flag_Parse : Proc flagValues)
    (w w' : World) (code : Z) :
  mainFrom usage PackageOf filepath_Dir Quote Load PackageFiles ExpressionType
           signature params results Pass WriteToFilename flag_Parse w
  = (Exit code, w') →
  flag_Parse w = (Exit code, w')
  ∨ ∃ fv w1, flag_Parse w = (Continue fv, w1)
             ∧ code = 1%Z
             ∧ (files w' = files w1
                ∨ ∃ gen err, WriteToFilename gen (output fv) (files w1)
                             = (Some err, files w')).
Proof.
  rewrite mainFrom_bind. unfold Process.bind.
  destruct (flag_Parse w) as [[fv|code0] w1] eqn:Hparse.
  - intros Hexit. right. exists fv, w1. split; [done |].
    destruct (main_fails_with_status_1 fv w1 w' code Hexit)
      as (-> & msg & _ & [Hfiles|(gen & err & Hwrite & _)]).
    + split; [done |]. by left.
    + split; [done |]. right. by exists gen, err.
  - intros [= <- <-]. by left.
Qed.

(** X9.  When [main] returns, it has printed nothing; the flags were valid,
    both package paths resolved, the package loaded, the walk found under
    the requested name at least one method, the template ran on the method
    map in the generator configured from the flags, and the files are those
    [WriteToFilename] left, without an error, for the [-o] path. *)
Theorem main_returns_only_after_writing (fv : flagValues) (w w' : World) :
  main' fv w = (Continue tt, w') →
  stderr w' = stderr w
  ∧ flagsValid fv
  ∧ ∃ packagePath destPackagePath p gen,
      PackageOf (input fv) = Ok packagePath
      ∧ PackageOf (filepath_Dir (output fv)) = Ok destPackagePath
      ∧ Load [packagePath; destPackagePath] = Ok p
      ∧ resolved (ExpressionType p) (name fv)
          (packageSpecs (PackageFiles p packagePath)) ≠ ∅
      ∧ ProcessTemplate' (configure p destPackagePath (optionsOf fv))
          (resolved (ExpressionType p) (name fv)
             (packageSpecs (PackageFiles p packagePath)))
        = Ok gen
      ∧ WriteToFilename gen (output fv) (files w) = (None, files w').
Proof.
  rewrite main_cases.
  destruct (flagsRejected fv) eqn:Hfl; [discriminate |].
  apply flagsRejected_false in Hfl.
  destruct (PackageOf (input fv)) as [pp|err]; [| discriminate].
  destruct (PackageOf (filepath_Dir (output fv))) as [dp|err]; [| discriminate].
  destruct (Load [pp; dp]) as [p|err] eqn:Hload; [| discriminate].
  destruct (visitSpecs_outcome (ExpressionType p)
              (packageSpecs (PackageFiles p pp))
              {| methods := ∅; sourceInterface := name fv |} w)
    as [->|[err ->]]; [| discriminate].
  cbn [sourceInterface]. fold (resolved (ExpressionType p) (name fv)
                                 (packageSpecs (PackageFiles p pp))).
  destruct (decide (size _ = 0)) as [|Hsize]; [discriminate |].
  destruct (ProcessTemplate' _ _) as [gen|err] eqn:Htemplate; [| discriminate].
  destruct (WriteToFilename gen (output fv) (files w)) as [[err|] fs] eqn:Hwrite;
    [discriminate |].
  intros [= <-]. split; [done |]. split; [done |].
  exists pp, dp, p, gen. repeat split; try done.
  intros Hempty. apply Hsize. rewrite Hempty. apply map_size_empty.
Qed.

(** X10.  With valid flags, resolved package paths, a loaded package whose
    type expressions have types and a method found under the requested
    name: when the template functions succeed, [main] hands
    [WriteToFilename] a generator that holds the text of [template] for the
    struct name of the flags and the method map of the walk, under the
    package name of [-p], with the header naming the [-f] value and the
    destination package as the one import; when that write succeeds,
    [main] returns with the files the write left and nothing printed. *)
Theorem main_writes_the_mock (fv : flagValues) (w : World)
    (packagePath destPackagePath : string) (p : Program) (text : string)
    (fs : gmap string string) :
  flagsValid fv →
  PackageOf (input fv) = Ok packagePath →
  PackageOf (filepath_Dir (output fv)) = Ok destPackagePath →
  Load [packagePath; destPackagePath] = Ok p →
  typed (ExpressionType p) (packageSpecs (PackageFiles p packagePath)) →
  resolved (ExpressionType p) (name fv)
    (packageSpecs (PackageFiles p packagePath)) ≠ ∅ →
  template (signature p) (params p) (results p) Pass
    (StructName (optionsOf fv))
    (rangeMap (resolved (ExpressionType p) (name fv)
                 (packageSpecs (PackageFiles p packagePath))))
  = Ok text →
  WriteToFilename
    {| prog := p;
       imports := [(destPackagePath, EmptyString)];
       packageName := pkg fv;
       vars := <["interfaceName" := name fv]>
                 (<["structName" := StructName (optionsOf fv)]> ∅);
       header := headerText (input fv);
       body := text |}
    (output fv) (files w)
  = (None, fs) →
  main' fv w = (Continue tt, set_files fs w).
Proof.
  intros Hvalid Hpp Hdp Hload Hty Hne Htext Hwrite.
  rewrite main_cases.
  apply flagsRejected_false in Hvalid. rewrite Hvalid, Hpp, Hdp, Hload.
  rewrite visitSpecs_typed by done. cbn [sourceInterface].
  fold (resolved (ExpressionType p) (name fv)
          (packageSpecs (PackageFiles p packagePath))).
  rewrite decide_False.
  2:{ intros Hsize. by apply map_size_empty_inv in Hsize. }
  unfold ProcessTemplate. rewrite executeTemplate_configure, Htext.
  replace (write_body text (configure p destPackagePath (optionsOf fv)))
    with {| prog := p;
            imports := [(destPackagePath, EmptyString)];
            packageName := pkg fv;
            vars := <["interfaceName" := name fv]>
                      (<["structName" := StructName (optionsOf fv)]> ∅);
            header := headerText (input fv);
            body := text |}.
  { by rewrite Hwrite. }
  reflexivity.
Qed.

End MainMore.

Lemma mainOn_accepts_exits :
  Parse.mainOn Parse.accepts Example.world
  = (Exit 1, (Example.toolMain Example.flagsConfig Example.world).2).
Proof. vm_compute. reflexivity. Defined.

Lemma main_exit_is_parse_or_status_1_witness :
  Parse.mainOn Parse.accepts Example.world
  = (Exit 1, (Example.toolMain Example.flagsConfig Example.world).2)
  ∧ (Parse.accepts Example.world
     = (Exit 1, (Example.toolMain Example.flagsConfig Example.world).2)
     ∨ ∃ fv w1,
         Parse.accepts Example.world = (Continue fv, w1)
         ∧ 1%Z = 1%Z
         ∧ (files (Example.toolMain Example.flagsConfig Example.world).2
            = files w1
            ∨ ∃ gen err,
                Example.WriteToFilename gen (output fv) (files w1)
                = (Some err,
                   files (Example.toolMain Example.flagsConfig Example.world).2))).
Proof.
  split; [exact mainOn_accepts_exits |].
  exact (main_exit_is_parse_or_status_1 Example.usage Example.PackageOf
           Example.filepath_Dir Example.Quote Example.Load
           Example.PackageFiles (λ _, Example.ExpressionType)
           Example.signature Example.params Example.results Example.Pass
           Example.WriteToFilename Parse.accepts Example.world _ 1
           mainOn_accepts_exits).
Defined.

(** A command line [flag.Parse] refuses: the exit is its own, status 2. *)
Lemma mainOn_refuses :
  Parse.mainOn Parse.refuses Example.world
  = (Exit 2, write_stderr "flag provided but not defined: -x" Example.world).
Proof. reflexivity. Qed.

Lemma main_Greeter_returns :
  Example.toolMain Example.flags Example.world
  = (Continue tt, (Example.toolMain Example.flags Example.world).2).
Proof. vm_compute. reflexivity. Defined.

Lemma main_returns_only_after_writing_witness :
  Example.toolMain Example.flags Example.world
  = (Continue tt, (Example.toolMain Example.flags Example.world).2)
  ∧ stderr (Example.toolMain Example.flags Example.world).2
    = stderr Example.world
  ∧ flagsValid Example.flags.
Proof.
  split; [exact main_Greeter_returns |].
  destruct (main_returns_only_after_writing Example.usage Example.PackageOf
              Example.filepath_Dir Example.Quote Example.Load
              Example.PackageFiles (λ _, Example.ExpressionType)
              Example.signature Example.params Example.results Example.Pass
              Example.WriteToFilename Example.flags Example.world _
              main_Greeter_returns) as (Hstderr & Hvalid & _).
  by split.
Defined.

Lemma Greeter_resolved :
  resolved Example.ExpressionType (name Example.flags)
    (packageSpecs (Example.PackageFiles Example.program "example.com/greeter"))
  ≠ ∅.
Proof.
  intros Hempty. apply (f_equal (λ m, m !! "Greet")) in Hempty.
  vm_compute in Hempty. discriminate.
Defined.

Lemma main_writes_the_mock_witness :
  flagsValid Example.flags
  ∧ typed Example.ExpressionType
      (packageSpecs (Example.PackageFiles Example.program "example.com/greeter"))
  ∧ resolved Example.ExpressionType (name Example.flags)
      (packageSpecs (Example.PackageFiles Example.program "example.com/greeter"))
    ≠ ∅
  ∧ ∃ text fs,
      template (Example.signature Example.program)
        (Example.params Example.program) (Example.results Example.program)
        Example.Pass (StructName (optionsOf Example.flags))
        (rangeMap (resolved Example.ExpressionType (name Example.flags)
                     (packageSpecs (Example.PackageFiles Example.program
                                      "example.com/greeter"))))
      = Ok text
      ∧ Example.toolMain Example.flags Example.world
        = (Continue tt, set_files fs Example.world).
Proof.
  assert (typed Example.ExpressionType
            (packageSpecs (Example.PackageFiles Example.program
                             "example.com/greeter"))) as Hty.
  { repeat constructor; by eexists. }
  split; [exact flags_valid |]. split; [exact Hty |].
  split; [exact Greeter_resolved |].
  eexists. eexists.
  assert (∀ (A B : Prop) (a : A), (A → B) → A ∧ B) as Hboth by tauto.
  eapply Hboth.
  - vm_compute. reflexivity.
  - intros Htext.
    eapply (main_writes_the_mock Example.usage Example.PackageOf
              Example.filepath_Dir Example.Quote Example.Load
              Example.PackageFiles (λ _, Example.ExpressionType)
              Example.signature Example.params Example.results Example.Pass
              Example.WriteToFilename Example.flags Example.world
              "example.com/greeter" "example.com/greeter" Example.program
              _ _ flags_valid eq_refl eq_refl eq_refl Hty Greeter_resolved Htext).
    reflexivity.
Defined.

(** ** The template *)

Lemma range_Ok {A} (body : A → result string) (entries : list A) :
  Forall (succeeds body) entries → ∃ s, range_ entries body = Ok s.
Proof.
  induction 1 as [|e entries [s Hs] _ [r Hr]]; cbn; [by eexists |].
  rewrite Hs. cbn. rewrite Hr. cbn. by eexists.
Qed.

Lemma range_Ok_inv {A} (body : A → result string) (entries : list A) (s : string) :
  range_ entries body = Ok s → Forall (succeeds body) entries.
Proof.
  revert s. induction entries as [|e entries IH]; intros s; [constructor |].
  cbn. destruct (body e) as [b|err] eqn:Hb; cbn; [| discriminate].
  destruct (range_ entries body) as [r|err] eqn:Hr; cbn; [| discriminate].
  intros _. constructor; [by exists b | by eapply IH].
Qed.

Section TemplateMore.
Context {Param : Type}.
Variable signature : Signature → result string.
Variable params : Signature → result (list Param).
Variable results : Signature → result (list Param).
Variable Pass : list Param → string.
Variable structName : string.

Local Abbreviation template' := (template signature params results Pass structName).

Lemma template_fields_succeeds (e : string * Signature) :
  succeeds (template_fields signature) e ↔ succeeds signature e.2.
Proof.
  destruct e as [n sig]. unfold succeeds, template_fields. cbn.
  destruct (signature sig); cbn; split; intros [b Hb]; by eauto.
Qed.

Lemma template_method_succeeds (e : string * Signature) :
  succeeds (template_method signature params results Pass structName) e
  ↔ succeeds signature e.2 ∧ succeeds results e.2 ∧ succeeds params e.2.
Proof.
  destruct e as [n sig]. unfold succeeds, template_method. cbn.
  destruct (signature sig); cbn.
  2:{ split; [by intros [b Hb] | by intros [[b Hb] _]]. }
  destruct (results sig); cbn.
  2:{ split; [by intros [b Hb] | by intros (_ & [b Hb] & _)]. }
  destruct (params sig); cbn.
  2:{ split; [by intros [b Hb] | by intros (_ & _ & [b Hb])]. }
  split; [intros _ | intros _].
  - repeat split; by eexists.
  - by eexists.
Qed.

(** X11.  The template executes without an error exactly when the
    generator's [signature], [results] and [params] succeed on the
    signature of every entry; the struct name has no part in that. *)
Theorem template_succeeds_iff (entries : list (string * Signature)) :
  (∃ text, template' entries = Ok text)
  ↔ Forall (λ e, succeeds signature e.2 ∧ succeeds results e.2
                 ∧ succeeds params e.2) entries.
Proof.
  unfold template. split.
  - intros [text Htext].
    destruct (range_ entries (template_fields signature)) as [fields|err];
      cbn in Htext; [| discriminate].
    destruct (range_ entries template_counters) as [counters|err];
      cbn in Htext; [| discriminate].
    destruct (range_ entries (template_method signature params results Pass
                                structName)) as [forwards|err] eqn:Hfw;
      cbn in Htext; [| discriminate].
    apply range_Ok_inv in Hfw.
    eapply Forall_impl; [exact Hfw |].
    intros e. apply template_method_succeeds.
  - intros Hall.
    destruct (range_Ok (template_fields signature) entries) as [fields ->].
    { eapply Forall_impl; [exact Hall |].
      intros e (Hs & _). by apply template_fields_succeeds. }
    destruct (range_Ok template_counters entries) as [counters ->].
    { apply Forall_forall. intros [n sig] _. by eexists. }
    destruct (range_Ok (template_method signature params results Pass structName)
                entries) as [forwards ->].
    { eapply Forall_impl; [exact Hall |].
      intros e. apply template_method_succeeds. }
    destruct (range_Ok (template_expected structName) entries) as [expected ->].
    { apply Forall_forall. intros [n sig] _. by eexists. }
    destruct (range_Ok template_all_called entries) as [all_called ->].
    { apply Forall_forall. intros [n sig] _. by eexists. }
    cbn. by eexists.
Qed.

End TemplateMore.

(** ** The operations of the generated mock *)

Section MockMore.
Context {Value : Type}.
Variable structName : string.
Variable data : gmap string Signature.
Implicit Types (st : Mock.State Value) (op : Op Value) (ops : list (Op Value)).

Lemma exec_func op st (n : string) :
  Mock.XFunc (exec structName data op st) n = Mock.XFunc st n.
Proof.
  destruct op as [methodName sig args| | |]; cbn [exec].
  - rewrite method_run. by destruct (Mock.XFunc st methodName).
  - by rewrite ValidateCallCounters_run.
  - by rewrite CheckMocksCalled_run.
  - by rewrite AllMocksCalled_run.
Qed.



Lemma execAll_func ops :
  ∀ st n, Mock.XFunc (execAll structName data ops st) n = Mock.XFunc st n.
Proof.
  induction ops as [|op ops IH]; intros st n; [done |].
  rewrite execAll_cons, IH. apply exec_func.
Qed.

Lemma callsOf_cons (n : string) op ops :
  callsOf n (op :: ops)
  = if isCallOf n op then S (callsOf n ops) else callsOf n ops.
Proof.
  unfold callsOf. rewrite filter_cons.
  destruct (isCallOf n op); [by rewrite decide_True | by rewrite decide_False].
Qed.

Lemma exec_counter_isCallOf op st (n : string) :
  Mock.XCounter (exec structName data op st) n
  = if isCallOf n op then int_add (Mock.XCounter st n) 1 else Mock.XCounter st n.
Proof.
  rewrite exec_counter. destruct op as [methodName sig args| | |]; cbn; try done.
  destruct (decide (n = methodName)) as [->|Hne].
  - by rewrite bool_decide_eq_true_2.
  - by rewrite bool_decide_eq_false_2.
Qed.


Lemma execAll_counter ops :
  ∀ st (n : string),
    (minInt ≤ Mock.XCounter st n)%Z →
    (Mock.XCounter st n + Z.of_nat (callsOf n ops) ≤ maxInt)%Z →
    Mock.XCounter (execAll structName data ops st) n
    = (Mock.XCounter st n + Z.of_nat (callsOf n ops))%Z.
Proof.
  induction ops as [|op ops IH]; intros st n Hmin Hmax.
  - cbn. lia.
  - rewrite execAll_cons. rewrite callsOf_cons in Hmax |- *.
    pose proof (exec_counter_isCallOf op st n) as Hstep.
    destruct (isCallOf n op).
    + rewrite int_add_1_in_range in Hstep by lia.
      rewrite IH; rewrite Hstep; lia.
    + rewrite IH; rewrite Hstep; lia.
Qed.

(** X13.  After a sequence of operations the counter of a method is its
    counter before plus the number of calls of the method in the sequence,
    whatever other operations come between them, as long as that sum does
    not pass the largest [int]; and the counter of a method the sequence
    does not call is as before, whatever its value. *)
Theorem counter_counts_calls ops st (n : string) :
  ((minInt ≤ Mock.XCounter st n)%Z →
   (Mock.XCounter st n + Z.of_nat (callsOf n ops) ≤ maxInt)%Z →
   Mock.XCounter (execAll structName data ops st) n
   = (Mock.XCounter st n + Z.of_nat (callsOf n ops))%Z)
  ∧ (callsOf n ops = 0%nat →
     Mock.XCounter (execAll structName data ops st) n = Mock.XCounter st n).
Proof.
  split; [apply execAll_counter |].
  revert st. induction ops as [|op ops IH]; intros st Hnone; [done |].
  rewrite execAll_cons. rewrite callsOf_cons in Hnone.
  destruct (isCallOf n op) eqn:Hop; [discriminate |].
  rewrite IH by done. by rewrite exec_counter_isCallOf, Hop.
Qed.

(** X14.  [CheckMocksCalled] reports no error exactly when
    [AllMocksCalled] returns true, and [ValidateCallCounters] logs nothing
    but its notice exactly then. *)
Theorem checks_agree st :
  ((Mock.AllMocksCalled data st).1 = Mock.Returned true
   ↔ Mock.trace (Mock.CheckMocksCalled structName data st).2 = Mock.trace st)
  ∧ ((Mock.AllMocksCalled data st).1 = Mock.Returned true
     ↔ Mock.trace (Mock.ValidateCallCounters structName data st).2
       = Mock.trace st
         ++ [Mock.Log "ValidateCallCounters is deprecated please use CheckMocksCalled"]).
Proof.
  rewrite AllMocksCalled_run, CheckMocksCalled_run, ValidateCallCounters_run.
  cbn [fst snd addTrace Mock.trace].
  assert (Mock.Returned (bool_decide (¬ Exists (missed st) (rangeMap data).*1))
          = Mock.Returned true
          ↔ filter (missed st) (rangeMap data).*1 = []) as ->.
  { split.
    - intros [= Hb]. apply bool_decide_eq_true in Hb.
      destruct (filter _ _) as [|n l] eqn:E; [done |].
      exfalso. apply Hb. apply Exists_exists. exists n.
      assert (n ∈ filter (missed st) (rangeMap data).*1) as Hin
        by (rewrite E; left).
      apply list_elem_of_filter in Hin. tauto.
    - intros Hnil. f_equal. apply bool_decide_eq_true_2.
      rewrite Exists_exists. intros (n & Hn & Hm).
      assert (n ∈ filter (missed st) (rangeMap data).*1) as Hin
        by by apply list_elem_of_filter.
      rewrite Hnil in Hin. by apply elem_of_nil in Hin. }
  split.
  - split.
    + intros ->. cbn. by rewrite app_nil_r.
    + intros Heq. rewrite <- (app_nil_r (Mock.trace st)) in Heq at 2.
      apply app_inv_head in Heq. by destruct (filter _ _).
  - split.
    + by intros ->.
    + intros Heq. apply app_inv_head in Heq. injection Heq as Heq.
      by destruct (filter _ _).
Qed.

(** X15.  The three verification methods read the mock and do not write
    its fields: after any of them every function field and every counter
    is as before, so [AllMocksCalled] returns the same again. *)
Theorem verification_reads_only op st :
  isVerification op = true →
  (∀ n, Mock.XFunc (exec structName data op st) n = Mock.XFunc st n)
  ∧ (∀ n, Mock.XCounter (exec structName data op st) n = Mock.XCounter st n)
  ∧ (Mock.AllMocksCalled data (exec structName data op st)).1
    = (Mock.AllMocksCalled data st).1.
Proof.
  intros Hop.
  assert (∀ n, Mock.XCounter (exec structName data op st) n = Mock.XCounter st n)
    as Hcounter.
  { intros n. rewrite exec_counter. by destruct op. }
  split; [apply exec_func |]. split; [exact Hcounter |].
  rewrite !AllMocksCalled_run. cbn [fst]. f_equal. apply bool_decide_ext.
  apply not_iff_compat. rewrite !Exists_exists.
  apply exist_proper. intros n. apply and_iff_compat_l.
  unfold missed. by rewrite exec_func, Hcounter.
Qed.

(** X16.  On a mock whose counters are all zero, after a sequence of at
    most as many operations as the largest [int] counts, [AllMocksCalled]
    returns true exactly when every method of the interface that has a
    function stored was called at least once in the sequence. *)
Theorem all_called_iff_each_called ops st :
  (∀ n, Mock.XCounter st n = 0%Z) →
  (Z.of_nat (length ops) ≤ maxInt)%Z →
  (Mock.AllMocksCalled data (execAll structName data ops st)).1
  = Mock.Returned true
  ↔ ∀ n, is_Some (data !! n) → is_Some (Mock.XFunc st n) →
         (0 < callsOf n ops)%nat.
Proof.
  intros Hzero Hlen.
  assert (∀ n, Mock.XCounter (execAll structName data ops st) n
               = Z.of_nat (callsOf n ops)) as Hcount.
  { intros n.
    assert (callsOf n ops ≤ length ops)%nat as Hle by apply length_filter.
    rewrite execAll_counter; rewrite Hzero; [lia | done | lia]. }
  rewrite AllMocksCalled_run. cbn [fst]. split.
  - intros [= Hb]. apply bool_decide_eq_true in Hb.
    intros n Hn Hf.
    destruct (decide (0 < callsOf n ops)%nat) as [|Hnot]; [done |].
    exfalso. apply Hb. apply Exists_exists. exists n.
    split; [by apply elem_of_rangeMap_keys |].
    split; [by rewrite execAll_func |]. rewrite Hcount. lia.
  - intros Hall. f_equal. apply bool_decide_eq_true_2.
    rewrite Exists_exists. intros (n & Hn & Hf & Hc).
    apply elem_of_rangeMap_keys in Hn. rewrite execAll_func in Hf.
    specialize (Hall n Hn Hf). rewrite Hcount in Hc. lia.
Qed.

End MockMore.

Lemma configured_counter_min :
  (minInt ≤ Mock.XCounter Example.configured "Greet")%Z.
Proof. vm_compute. discriminate. Defined.

Lemma two_calls_in_range :
  (Mock.XCounter Example.configured "Greet"
   + Z.of_nat (callsOf "Greet"
                 [Example.callGreet; OpCheckMocksCalled; Example.callGreet])
   ≤ maxInt)%Z.
Proof. vm_compute. discriminate. Defined.

Lemma counter_counts_calls_witness :
  (minInt ≤ Mock.XCounter Example.configured "Greet")%Z
  ∧ (Mock.XCounter Example.configured "Greet"
     + Z.of_nat (callsOf "Greet"
                   [Example.callGreet; OpCheckMocksCalled; Example.callGreet])
     ≤ maxInt)%Z
  ∧ Mock.XCounter
      (execAll "GreeterMock" Example.data
         [Example.callGreet; OpCheckMocksCalled; Example.callGreet]
         Example.configured) "Greet"
    = (Mock.XCounter Example.configured "Greet"
       + Z.of_nat (callsOf "Greet"
                     [Example.callGreet; OpCheckMocksCalled; Example.callGreet]))%Z.
Proof.
  split; [exact configured_counter_min |]. split; [exact two_calls_in_range |].
  exact (proj1 (counter_counts_calls "GreeterMock" Example.data
                  [Example.callGreet; OpCheckMocksCalled; Example.callGreet]
                  Example.configured "Greet")
           configured_counter_min two_calls_in_range).
Defined.

Lemma verification_reads_only_witness :
  isVerification (OpAllMocksCalled (Value := string)) = true
  ∧ (Mock.AllMocksCalled Example.data
       (exec "GreeterMock" Example.data OpAllMocksCalled Example.configured)).1
    = (Mock.AllMocksCalled Example.data Example.configured).1.
Proof.
  split; [reflexivity |].
  exact (proj2 (proj2 (verification_reads_only "GreeterMock" Example.data
                         OpAllMocksCalled Example.configured eq_refl))).
Defined.

Lemma configured_counters_zero : ∀ n, Mock.XCounter Example.configured n = 0%Z.
Proof. intros n. reflexivity. Defined.

Lemma one_call_in_range : (Z.of_nat (length [Example.callGreet]) ≤ maxInt)%Z.
Proof. vm_compute. discriminate. Defined.

Lemma all_called_iff_each_called_witness :
  (∀ n, Mock.XCounter Example.configured n = 0%Z)
  ∧ (Z.of_nat (length [Example.callGreet]) ≤ maxInt)%Z
  ∧ ((Mock.AllMocksCalled Example.data
        (execAll "GreeterMock" Example.data [Example.callGreet]
           Example.configured)).1
     = Mock.Returned true
     ↔ ∀ n, is_Some (Example.data !! n) →
            is_Some (Mock.XFunc Example.configured n) →
            (0 < callsOf n [Example.callGreet])%nat).
Proof.
  split; [exact configured_counters_zero |]. split; [exact one_call_in_range |].
  exact (all_called_iff_each_called "GreeterMock" Example.data
           [Example.callGreet] Example.configured
           configured_counters_zero one_call_in_range).
Defined.
